(** * chrypto: the backfill engine of [chrypto.go], embedded and verified

    The development follows the Go source function by function:
    [isDummyQuote], [get], [createTable], [createTableIfNeeded],
    [writeToDB], [getHistoricalFor] and [main].  The remote API and the
    SQLite engine are the two external collaborators; they appear as an
    explicit environment (what each request answers, which statements
    fail) and an explicit store that is threaded through every call. *)

From Stdlib Require Import ZArith Lia Bool.
From Stdlib Require Import Floats.SpecFloat.
From stdpp Require Import base option list gmap strings.

Local Open Scope Z_scope.

(** ** Machine integers

    [Quote.Time] and the cursor are Go [int64]: arithmetic wraps. *)

Module Int64.

Definition min_int : Z := - 2 ^ 63.
Definition max_int : Z := 2 ^ 63 - 1.

Definition in_range (z : Z) : Prop := min_int <= z <= max_int.

Definition wrap (z : Z) : Z := (z + 2 ^ 63) mod 2 ^ 64 - 2 ^ 63.

Definition sub (a b : Z) : Z := wrap (a - b).

End Int64.

(** ** Data model *)

(** Go [float64], as the IEEE 754 values of the Standard Library. *)
Definition float64 : Type := spec_float.

Definition float_zero : float64 := S754_zero false.

(** Go's [x == 0] on a [float64]: IEEE comparison with the constant 0. *)
Definition float_is_zero (x : float64) : bool := SFeqb x float_zero.

Record Quote : Type := mkQuote {
  Time : Z; (* int64 unix timestamp *)
  Close : float64;
  High : float64;
  Low : float64;
  Open : float64;
  VolumeFrom : float64;
  VolumeTo : float64
}.

(** The zero value [Quote{}]. *)
Definition Quote_zero : Quote :=
  mkQuote 0 float_zero float_zero float_zero float_zero float_zero float_zero.

Definition isDummyQuote (quote : Quote) : bool :=
  if float_is_zero (Open quote) && float_is_zero (Close quote)
     && float_is_zero (High quote) && float_is_zero (Low quote)
  then true
  else false.

(** A float that is a zero of either sign. *)
Definition exactly_zero (x : float64) : Prop := exists s, x = S754_zero s.

(** ** Errors, log lines and the store *)

(** Go [error] values, as far as the program tells them apart:
    [sql.ErrNoRows], values of type [sqlite3.Error] (with their
    [ExtendedCode]) and every other error. *)
Inductive error : Type :=
| ErrNoRows
| SqliteError (ExtendedCode : Z)
| OtherError (msg : string).

(** SQLITE_CONSTRAINT_UNIQUE, the code [writeToDB] tests for. *)
Definition SQLITE_CONSTRAINT_UNIQUE : Z := 2067.
(** SQLITE_ERROR, the generic code (no such table, table already exists). *)
Definition SQLITE_ERROR : Z := 1.

(** What the program prints through [log]. *)
Inductive LogLine : Type :=
| LogFatal (e : error)
| LogParseError (e : error)
| LogCouldNotCreate (symbol : string)
| LogTableCreationFailed (symbol : string)
| LogDuplicate (symbol : string) (time : Z)
| LogWriteFailed (symbol : string)
| LogFetching (symbol : string)
| LogGotAll (symbol : string)
| LogError (e : error).

(** Transaction boundaries seen by the database. *)
Inductive TxOp : Type :=
| TxBegin
| TxCommit (ok : bool).

(** An instrument table has a UNIQUE [time] column: at most one row per
    timestamp.  The database maps table names to tables. *)
Abbreviation table := (gmap Z Quote).
Abbreviation store := (gmap string (gmap Z Quote)).

(** The row of table [symbol] at timestamp [t], if any. *)
Definition row (d : store) (symbol : string) (t : Z) : option Quote :=
  d !! symbol ≫= (.!! t).

(** Everything the program can change: the committed database, the log,
    the transaction boundaries issued so far, and the requests sent to the
    remote API (symbol and [toTs]) in the order they were sent. *)
Record World : Type := mkWorld {
  db : store;
  logs : list LogLine;
  txops : list TxOp;
  requests : list (string * Z)
}.

Definition set_db (d : store) (w : World) : World :=
  mkWorld d (logs w) (txops w) (requests w).
Definition log_line (l : LogLine) (w : World) : World :=
  mkWorld (db w) (logs w ++ [l]) (txops w) (requests w).
Definition record_tx (o : TxOp) (w : World) : World :=
  mkWorld (db w) (logs w) (txops w ++ [o]) (requests w).
Definition record_request (symbol : string) (time : Z) (w : World) : World :=
  mkWorld (db w) (logs w) (txops w) (requests w ++ [(symbol, time)]).

(** Which statements of one [writeToDB] call the database engine fails,
    beyond the failures the data itself causes (a missing table, a
    duplicate timestamp).  [exec_faults] is consumed one entry per INSERT;
    an exhausted list means no further fault. *)
Record Faults : Type := mkFaults {
  query_fault : option error;
  create_fault : option error;
  begin_fault : option error;
  exec_faults : list (option error);
  commit_fault : option error
}.

Definition no_faults : Faults := mkFaults None None None [] None.

(** *** The engine's statements *)

(** [SELECT name FROM sqlite_master WHERE type="table" AND name="symbol"],
    scanned into one string: [sql.ErrNoRows] when there is no such table.
    The symbol is written into the statement between double quotes, which
    SQLite reads as a string only when no column of [sqlite_master] has
    that name; the symbols here are taken to be such names (tickers like
    BTC), for which the lookup is a comparison of table names. *)
Definition queryTable (fault : option error) (symbol : string) (d : store)
  : option error :=
  match fault with
  | Some e => Some e
  | None => match d !! symbol with
            | Some _ => None
            | None => Some ErrNoRows
            end
  end.

(** [CREATE TABLE symbol (time INT UNIQUE, ...)] through [db.Exec]. *)
Definition execCreate (fault : option error) (symbol : string) (d : store)
  : store * option error :=
  match fault with
  | Some e => (d, Some e)
  | None => match d !! symbol with
            | Some _ => (d, Some (SqliteError SQLITE_ERROR))
            | None => (<[symbol := ∅]> d, None)
            end
  end.

(** [INSERT INTO symbol (time, ...) VALUES (...)] inside a transaction
    whose working copy is [tx].  A failed statement changes nothing. *)
Definition txExec (fault : option error) (symbol : string) (q : Quote)
    (tx : store) : store * option error :=
  match fault with
  | Some e => (tx, Some e)
  | None =>
    match tx !! symbol with
    | None => (tx, Some (SqliteError SQLITE_ERROR))
    | Some t =>
      match t !! Time q with
      | Some _ => (tx, Some (SqliteError SQLITE_CONSTRAINT_UNIQUE))
      | None => (<[symbol := <[Time q := q]> t]> tx, None)
      end
    end
  end.

(** [tx.Commit()]: the working copy becomes the database, unless the
    commit fails. *)
Definition txCommit (fault : option error) (tx : store) (w : World)
  : World * option error :=
  match fault with
  | Some e => (record_tx (TxCommit false) w, Some e)
  | None => (set_db tx (record_tx (TxCommit true) w), None)
  end.

(** ** The Store Writer *)

Definition createTable (f : Faults) (symbol : string) (w : World)
  : World * option error :=
  let '(d, err) := execCreate (create_fault f) symbol (db w) in
  match err with
  | Some e => (log_line (LogCouldNotCreate symbol) w, Some e)
  | None => (set_db d w, None)
  end.

Definition createTableIfNeeded (f : Faults) (symbol : string) (w : World)
  : World * (bool * option error) :=
  match queryTable (query_fault f) symbol (db w) with
  | Some ErrNoRows =>
    let '(w', err) := createTable f symbol w in
    match err with
    | Some e => (w', (false, Some e))
    | None => (w', (true, None))
    end
  | Some e => (w, (false, Some e))
  | None => (w, (false, None))
  end.

(** The [for _, q := range quotes] loop of [writeToDB].  The result is
    the world, the transaction's working copy and the error the function
    returns from inside the loop, if any. *)
Fixpoint insertLoop (symbol : string) (quotes : list Quote)
    (faults : list (option error)) (tx : store) (w : World)
  : World * store * option error :=
  match quotes with
  | [] => (w, tx, None)
  | q :: rest =>
    if isDummyQuote q then (w, tx, None) (* break *)
    else
      let '(tx', err) := txExec (mjoin (head faults)) symbol q tx in
      match err with
      | None => insertLoop symbol rest (tail faults) tx' w
      | Some (SqliteError code) =>
        if code =? SQLITE_CONSTRAINT_UNIQUE
        then insertLoop symbol rest (tail faults) tx'
               (log_line (LogDuplicate symbol (Time q)) w) (* continue *)
        else (log_line (LogWriteFailed symbol) w, tx', Some (SqliteError code))
      | Some e => (w, tx', Some e) (* not a sqlite3.Error *)
      end
  end.

(** A Go call either returns or panics (index out of range). *)
Inductive go_result (A : Type) : Type :=
| Returned (a : A)
| Panic.
Arguments Returned {A} a.
Arguments Panic {A}.

Definition writeToDB (f : Faults) (quotes : list Quote) (symbol : string)
    (w : World) : World * go_result (Quote * option error) :=
  let '(w, (_, err)) := createTableIfNeeded f symbol w in
  match err with
  | Some e =>
    (log_line (LogTableCreationFailed symbol) w, Returned (Quote_zero, Some e))
  | None =>
    match begin_fault f with
    | Some e => (w, Returned (Quote_zero, Some e))
    | None =>
      let w := record_tx TxBegin w in
      let '(w, tx, err) := insertLoop symbol quotes (exec_faults f) (db w) w in
      match err with
      | Some e => (w, Returned (Quote_zero, Some e))
      | None =>
        let '(w, _) := txCommit (commit_fault f) tx w in
        match quotes !! 0%nat with
        | None => (w, Panic)
        | Some earliest => (w, Returned (earliest, None))
        end
      end
    end
  end.

(** ** The Page Fetcher *)

(** A response body, as [json.Decoder.Decode] sees it.  The decoder
    first reads one whole JSON value and only then stores it: a body that
    is not valid JSON (truncated, garbled) yields an error and leaves
    [info] untouched, so [info.Data] stays nil.  A valid JSON value with a
    field of the wrong type yields an error too, but the decoder skips
    that field and stores everything else: [filled] is the [Data] array
    with the offending field left at its zero value. *)
Inductive Body : Type :=
| WellFormed (data : list Quote)
| NotJSON (e : error)
| Mistyped (e : error) (filled : list Quote).

(** [Decode(&info)]: what ends up in [info.Data], and the error returned. *)
Definition decode (b : Body) : list Quote * option error :=
  match b with
  | WellFormed data => (data, None)
  | NotJSON e => ([], Some e)
  | Mistyped e filled => (filled, Some e)
  end.

(** What the remote side answers to one request: [http.Get] may fail;
    otherwise there is a body to decode. *)
Record Response : Type := mkResponse {
  transport_err : option error;
  body : Body
}.

(** [info.Data] after [Decode], and the error [Decode] returned. *)
Definition Data (r : Response) : list Quote := (decode (body r)).1.
Definition decode_err (r : Response) : option error := (decode (body r)).2.

(** The environment of a run: the answer to each request, and the
    database faults met by the write that follows that request. *)
Record Env : Type := mkEnv {
  api : string -> Z -> Response;
  dbfaults : string -> Z -> Faults
}.

(** [get] returns the page, or does not return at all: [log.Fatal] prints
    and calls [os.Exit(1)].  The condition after [Decode] tests the [err]
    of [http.Get]; the decoder's own result is not bound to anything. *)
Definition get (e : Env) (symbol : string) (time : Z) (w : World)
  : World * option (list Quote) :=
  let w := record_request symbol time w in
  let res := api e symbol time in
  let err := transport_err res in
  match err with
  | Some x => (log_line (LogFatal x) w, None)
  | None =>
    let info_Data := Data res in
    let w := match err with
             | Some x => log_line (LogParseError x) w
             | None => w
             end in
    (w, Some info_Data)
  end.

(** ** The Backfill Driver *)

(** Go slice indexing [s[i]] with an [int] index: out of range panics. *)
Definition index {A : Type} (s : list A) (i : Z) : option A :=
  if i <? 0 then None else s !! Z.to_nat i.

(** What one driver sends to the coordinator: its symbol on [donec], or
    an error on [errc]. *)
Inductive Signal : Type :=
| OnDonec (symbol : string)
| OnErrc (e : error).

(** One activation of [getHistoricalFor], up to its recursive call. *)
Inductive Activation : Type :=
| Recurse (untilDate : Z)
| Send (s : Signal)
| OsExit
| Crash.

Definition activation (e : Env) (symbol : string) (unixtime : Z) (w : World)
  : World * Activation :=
  match get e symbol unixtime w with
  | (w, None) => (w, OsExit)
  | (w, Some data) =>
    match index data (Z.of_nat (length data) - 1) with
    | None => (w, Crash)
    | Some final =>
      if isDummyQuote final then (w, Send (OnDonec symbol))
      else
        match writeToDB (dbfaults e symbol unixtime) data symbol w with
        | (w, Panic) => (w, Crash)
        | (w, Returned (_, Some err)) => (w, Send (OnErrc err))
        | (w, Returned (earliest, None)) =>
          (w, Recurse (Int64.sub (Time earliest) 1))
        end
    end
  end.

(** How a driver's run ends.  [Done] and [Failed] are the two signals;
    the other two endings take the whole process down. *)
Inductive DriverEnd : Type :=
| Done (symbol : string)
| Failed (e : error)
| ProcessExit
| ProcessPanic
| Running (cursor : Z).

(** [getHistoricalFor] recurses without bound; [fuel] bounds the number
    of activations, and [Running] is the answer when it is used up. *)
Fixpoint getHistoricalFor (fuel : nat) (e : Env) (symbol : string)
    (unixtime : Z) (w : World) : World * DriverEnd :=
  match fuel with
  | O => (w, Running unixtime)
  | S fuel' =>
    match activation e symbol unixtime w with
    | (w', Recurse untilDate) => getHistoricalFor fuel' e symbol untilDate w'
    | (w', Send (OnDonec s)) => (w', Done s)
    | (w', Send (OnErrc err)) => (w', Failed err)
    | (w', OsExit) => (w', ProcessExit)
    | (w', Crash) => (w', ProcessPanic)
    end
  end.

(** ** The Fan-out Coordinator *)

(** A goroutine started by [main]: still in [getHistoricalFor] with the
    given cursor, blocked sending on an unbuffered channel, or returned. *)
Inductive Goroutine : Type :=
| InDriver (symbol : string) (cursor : Z)
| Sending (s : Signal)
| Finished.

(** The process: alive with its goroutines and the counter [i] of
    [main]'s receive loop, or exited with a status. *)
Inductive Proc : Type :=
| Live (gs : list Goroutine) (i : nat) (w : World)
| Exited (status : Z) (w : World).

(** The scheduler's choices: let goroutine [k] run one activation (taken
    as one step: the drivers share nothing but the database, and each
    write is one transaction), or let [main] receive what goroutine [k]
    is sending. *)
Inductive Action : Type :=
| Drive (k : nat)
| Receive (k : nat).

Definition signal_log (s : Signal) : LogLine :=
  match s with
  | OnDonec done => LogGotAll done
  | OnErrc err => LogError err
  end.

(** One scheduling step.  An action that is not enabled leaves the
    process as it is.  Exit status 1 is [log.Fatal], 2 an unrecovered
    panic, 0 the return of [main]. *)
Definition step (e : Env) (a : Action) (p : Proc) : Proc :=
  match p with
  | Exited _ _ => p
  | Live gs i w =>
    match a with
    | Drive k =>
      match gs !! k with
      | Some (InDriver symbol cursor) =>
        match activation e symbol cursor w with
        | (w', Recurse untilDate) =>
          Live (<[k := InDriver symbol untilDate]> gs) i w'
        | (w', Send s) => Live (<[k := Sending s]> gs) i w'
        | (w', OsExit) => Exited 1 w'
        | (w', Crash) => Exited 2 w'
        end
      | _ => p
      end
    | Receive k =>
      match gs !! k with
      | Some (Sending s) =>
        let w' := log_line (signal_log s) w in
        if (S i =? length gs)%nat then Exited 0 w'
        else Live (<[k := Finished]> gs) (S i) w'
      | _ => p
      end
    end
  end.

Definition run (e : Env) (schedule : list Action) (p : Proc) : Proc :=
  foldl (fun p a => step e a p) p schedule.

(** [main]: a failure of [resolvePath] or [initializeDB] is fatal;
    otherwise one goroutine per symbol, all started at [now]. *)
Definition main (startup_err : option error) (symbols : list string)
    (now : Z) (d : store) : Proc :=
  match startup_err with
  | Some err => Exited 1 (mkWorld d [LogFatal err] [] [])
  | None =>
    let w := mkWorld d (LogFetching <$> symbols) [] [] in
    if (0 =? length symbols)%nat then Exited 0 w
    else Live ((fun s => InDriver s now) <$> symbols) 0 w
  end.

(** ** Vocabulary of the statements *)

(** The quotes of a batch before its first sentinel. *)
Fixpoint real_prefix (quotes : list Quote) : list Quote :=
  match quotes with
  | [] => []
  | q :: rest => if isDummyQuote q then [] else q :: real_prefix rest
  end.

(** Adding rows to a table in order, a row whose timestamp is already
    present being left out. *)
Definition insert_missing (quotes : list Quote) (t : table) : table :=
  foldl (fun t q => match t !! Time q with
                    | Some _ => t
                    | None => <[Time q := q]> t
                    end) t quotes.

(** An INSERT outcome that lets the loop go on: no injected fault, or one
    that carries the uniqueness code. *)
Definition lets_loop_continue (o : option error) : Prop :=
  o = None \/ o = Some (SqliteError SQLITE_CONSTRAINT_UNIQUE).

(** The engine fails nothing of its own: the only INSERT errors are the
    uniqueness conflicts the data causes. *)
Definition only_conflicts (f : Faults) : Prop :=
  query_fault f = None /\ create_fault f = None /\ begin_fault f = None
  /\ Forall (eq None) (exec_faults f) /\ commit_fault f = None.

Definition with_commit_fault (c : option error) (f : Faults) : Faults :=
  mkFaults (query_fault f) (create_fault f) (begin_fault f) (exec_faults f) c.

Definition with_volumes (vf vt : float64) (q : Quote) : Quote :=
  mkQuote (Time q) (Close q) (High q) (Low q) (Open q) vf vt.

(** The same remote side, with every decode failure taken away. *)
Definition without_decode_errors (e : Env) : Env :=
  mkEnv (fun symbol time =>
           let r := api e symbol time in
           mkResponse (transport_err r) (WellFormed (Data r)))
        (dbfaults e).

(** The return value of a write that got through the loop. *)
Definition write_result (quotes : list Quote) : go_result (Quote * option error) :=
  match quotes !! 0%nat with
  | None => Panic
  | Some earliest => Returned (earliest, None)
  end.

(** A write that returned an error. *)
Definition failed (r : go_result (Quote * option error)) : Prop :=
  exists q e, r = Returned (q, Some e).

(** No transaction boundary in [ops] is a commit. *)
Definition no_commit (ops : list TxOp) : Prop :=
  forall ok, TxCommit ok ∉ ops.

(** Every quote of every page carries an [int64] timestamp. *)
Definition int64_times (e : Env) : Prop :=
  forall symbol t q, q ∈ Data (api e symbol t) -> Int64.in_range (Time q).

(** No quote of a page is later than the [toTs] the page was asked for. *)
Definition page_bounded (e : Env) : Prop :=
  forall symbol t q,
    Int64.in_range t -> q ∈ Data (api e symbol t) -> Time q <= t.

(** The first quote of a page is never at the smallest [int64]. *)
Definition first_above_min (e : Env) : Prop :=
  forall symbol t q,
    Data (api e symbol t) !! 0%nat = Some q -> Int64.min_int < Time q.

(** Each element strictly below the one before it. *)
Fixpoint strictly_decreasing (l : list Z) : Prop :=
  match l with
  | [] => True
  | x :: l' => match l' with
               | [] => True
               | y :: _ => y < x
               end /\ strictly_decreasing l'
  end.

(** ** Data of the examples *)

(** The [float64] 1.0 and 2.0, in canonical form. *)
Definition float_one : float64 := S754_finite false 4503599627370496 (-52).
Definition float_two : float64 := S754_finite false 4503599627370496 (-51).

(** A real quote at [t], all prices [p], and the sentinel the API pads with. *)
Definition real_quote (t : Z) (p : float64) : Quote :=
  mkQuote t p p p p float_one float_one.
Definition sentinel_quote (t : Z) : Quote :=
  mkQuote t float_zero float_zero float_zero float_zero float_zero float_zero.

Definition world_of (d : gmap string (gmap Z Quote)) : World := mkWorld d [] [] [].

(** A database whose BTC table already has the hour 3600. *)
Definition btc_3600 : gmap string (gmap Z Quote) :=
  {[ "BTC"%string := {[ 3600 := real_quote 3600 float_one ]} ]}.

(** An environment that answers every request with the same page and
    meets the same database faults at every write. *)
Definition constant_env (r : Response) (f : Faults) : Env :=
  mkEnv (fun _ _ => r) (fun _ _ => f).

Definition page (data : list Quote) : Response :=
  mkResponse None (WellFormed data).

(** A database whose disk fails at the first INSERT of every write. *)
Definition disk_error : error := OtherError "disk I/O error".
Definition failing_insert : Faults :=
  mkFaults None None None [Some disk_error] None.

(** The table of the write is there once [createTableIfNeeded] is
    through: the lookup found it, or it found nothing and the CREATE TABLE
    went well. *)
Definition table_ready (f : Faults) (symbol : string) (w : World) : Prop :=
  queryTable (query_fault f) symbol (db w) = None
  \/ (queryTable (query_fault f) symbol (db w) = Some ErrNoRows
      /\ (execCreate (create_fault f) symbol (db w)).2 = None).

(** The persistence errors a write can meet before its commit: the table
    lookup fails (with anything but "no rows"), the CREATE TABLE fails,
    [db.Begin] fails, or an INSERT the loop reaches fails with an error
    that is not the uniqueness conflict (the records before it are real,
    and their INSERTs went through or were skipped as duplicates). *)
Inductive raised_before_commit (f : Faults) (quotes : list Quote)
    (symbol : string) (w : World) (err : error) : Prop :=
| raised_by_lookup :
    queryTable (query_fault f) symbol (db w) = Some err ->
    err <> ErrNoRows ->
    raised_before_commit f quotes symbol w err
| raised_by_create :
    queryTable (query_fault f) symbol (db w) = Some ErrNoRows ->
    (execCreate (create_fault f) symbol (db w)).2 = Some err ->
    raised_before_commit f quotes symbol w err
| raised_by_begin :
    table_ready f symbol w ->
    begin_fault f = Some err ->
    raised_before_commit f quotes symbol w err
| raised_by_insert pre q post fs fs' :
    table_ready f symbol w ->
    begin_fault f = None ->
    quotes = pre ++ q :: post ->
    (forall q', q' ∈ pre ++ [q] -> isDummyQuote q' = false) ->
    exec_faults f = fs ++ Some err :: fs' ->
    length fs = length pre ->
    Forall lets_loop_continue fs ->
    err <> SqliteError SQLITE_CONSTRAINT_UNIQUE ->
    raised_before_commit f quotes symbol w err.

(** A database whose disk fails at the second INSERT of every write. *)
Definition failing_second_insert : Faults :=
  mkFaults None None None [None; Some disk_error] None.

(** SQLITE_BUSY at commit time, everything before it going through. *)
Definition failing_commit : Faults :=
  mkFaults None None None [] (Some (SqliteError 5)).

(** A truncated body: not a JSON value, nothing is decoded. *)
Definition truncated_body : Response :=
  mkResponse None (NotJSON (OtherError "unexpected EOF")).

(** A body whose one record has a string where [volumeto] should be a
    number: the decoder reports the mismatch and stores the record with
    [VolumeTo] left at zero. *)
Definition mistyped_body : Response :=
  mkResponse None
    (Mistyped
       (OtherError "json: cannot unmarshal string into Go struct field Quote.volumeto of type float64")
       [mkQuote 3600 float_two float_two float_two float_two float_one
          float_zero]).

(** The network is down for BTC only. *)
Definition net_down : error := OtherError "dial tcp: network is unreachable".
Definition btc_unreachable : Env :=
  mkEnv (fun symbol _ =>
           if decide (symbol = "BTC"%string)
           then mkResponse (Some net_down) (WellFormed [])
           else page [real_quote 3600 float_two])
        (fun _ _ => no_faults).

(** A remote side whose only quote sits at the smallest [int64]. *)
Definition env_min_time : Env :=
  constant_env (page [real_quote Int64.min_int float_two]) no_faults.

(** A remote side with one real quote per page, at the requested time. *)
Definition env_on_time : Env :=
  mkEnv (fun _ t =>
           if decide (Int64.min_int < t <= Int64.max_int)
           then page [real_quote t float_two]
           else page [])
        (fun _ _ => no_faults).

(** ** Vocabulary of the further properties *)



(** Below [t0] the remote side has nothing: a page asked for an earlier
    time ends with a sentinel, if it has a last quote at all. *)
Definition exhausted_below (e : Env) (symbol : string) (t0 : Z) : Prop :=
  forall t final,
    t < t0 ->
    last (Data (api e symbol t)) = Some final ->
    isDummyQuote final = true.

(** A remote side whose history starts at time 0: one real quote at the
    requested time from there on, one sentinel before. *)
Definition env_since_epoch : Env :=
  mkEnv (fun _ t =>
           if decide (0 <= t <= Int64.max_int)
           then page [real_quote t float_two]
           else if decide (Int64.min_int < t < 0)
                then page [sentinel_quote t]
                else page [])
        (fun _ _ => no_faults).


(** Where a goroutine stands once its driver's run has come to [r], and
    what has become of the process: a signal leaves the goroutine blocked
    on its channel, the two other endings take the process down. *)
Definition after_driver (gs : list Goroutine) (i k : nat) (symbol : string)
    (r : World * DriverEnd) : Proc :=
  match r with
  | (w, Running c) => Live (<[k := InDriver symbol c]> gs) i w
  | (w, Done s) => Live (<[k := Sending (OnDonec s)]> gs) i w
  | (w, Failed err) => Live (<[k := Sending (OnErrc err)]> gs) i w
  | (w, ProcessExit) => Exited 1 w
  | (w, ProcessPanic) => Exited 2 w
  end.

(** The signal a finished run sends, if it ends with one. *)
Definition end_signal (r : DriverEnd) : option Signal :=
  match r with
  | Done s => Some (OnDonec s)
  | Failed err => Some (OnErrc err)
  | _ => None
  end.

(** * Facts *)

(** ** Machine integers *)

Lemma Int64_wrap_in_range z : Int64.in_range (Int64.wrap z).
Proof.
  unfold Int64.in_range, Int64.wrap, Int64.min_int, Int64.max_int.
  pose proof (Z.mod_pos_bound (z + 2 ^ 63) (2 ^ 64) ltac:(lia)). lia.
Qed.

Lemma Int64_wrap_id z : Int64.in_range z -> Int64.wrap z = z.
Proof.
  unfold Int64.in_range, Int64.wrap, Int64.min_int, Int64.max_int. intros Hz.
  rewrite Z.mod_small by lia. lia.
Qed.

Lemma Int64_sub_one a :
  Int64.in_range a -> Int64.min_int < a -> Int64.sub a 1 = a - 1.
Proof.
  unfold Int64.sub. intros Ha Hlt. apply Int64_wrap_id.
  unfold Int64.in_range, Int64.min_int, Int64.max_int in *. lia.
Qed.

Lemma Int64_sub_one_underflow : Int64.sub Int64.min_int 1 = Int64.max_int.
Proof. reflexivity. Qed.

(** ** The Sentinel Detector *)

(** The prices of the examples are [float64] values. *)
Lemma example_floats_valid :
  valid_binary 53 1024 float_one = true
  /\ valid_binary 53 1024 float_two = true
  /\ valid_binary 53 1024 float_zero = true.
Proof. split_and!; reflexivity. Qed.

Lemma float_is_zero_spec x : float_is_zero x = true <-> exactly_zero x.
Proof.
  unfold float_is_zero, exactly_zero, float_zero, SFeqb. split.
  - destruct x as [s|s| |s m e]; simpl; try discriminate; eauto.
    + destruct s; discriminate.
    + destruct s; discriminate.
  - intros [s ->]. reflexivity.
Qed.

(** C8.  A quote is classified as a sentinel exactly when its open, high,
    low and close are all zero (of either sign: IEEE [==] does not tell
    them apart), and the classification does not depend on the volumes. *)
Theorem isDummyQuote_iff_prices_zero (q : Quote) :
  (isDummyQuote q = true <->
     exactly_zero (Open q) /\ exactly_zero (High q)
     /\ exactly_zero (Low q) /\ exactly_zero (Close q))
  /\ (forall vf vt, isDummyQuote (with_volumes vf vt q) = isDummyQuote q).
Proof.
  split; [|reflexivity].
  unfold isDummyQuote. rewrite <- !float_is_zero_spec.
  destruct (float_is_zero (Open q)), (float_is_zero (Close q)),
    (float_is_zero (High q)), (float_is_zero (Low q)); simpl;
    intuition discriminate.
Qed.

(** ** The Store Writer *)

Lemma real_prefix_split (quotes : list Quote) :
  exists rest,
    quotes = real_prefix quotes ++ rest
    /\ (forall q, q ∈ real_prefix quotes -> isDummyQuote q = false)
    /\ (forall q, head rest = Some q -> isDummyQuote q = true).
Proof.
  induction quotes as [|q0 rest (tl & Heq & Hreal & Hhd)]; simpl.
  - exists []. split_and!; [done| |done]. intros q Hq. by apply elem_of_nil in Hq.
  - destruct (isDummyQuote q0) eqn:Hq0.
    + exists (q0 :: rest). split_and!; [done| |].
      * intros q Hq. by apply elem_of_nil in Hq.
      * simpl. by intros q [= <-].
    + exists tl. split_and!; [simpl; by f_equal| |done].
      intros q [->|Hq]%elem_of_cons; auto.
Qed.

Lemma real_prefix_all_real (quotes : list Quote) :
  (forall q, q ∈ quotes -> isDummyQuote q = false) ->
  real_prefix quotes = quotes.
Proof.
  induction quotes as [|q0 rest IH]; intros Hall; simpl; [done|].
  rewrite (Hall q0) by apply list_elem_of_here.
  f_equal. apply IH. intros q Hq. apply Hall. by apply list_elem_of_further.
Qed.

Lemma insertLoop_real_prefix symbol quotes faults tx w :
  insertLoop symbol quotes faults tx w
  = insertLoop symbol (real_prefix quotes) faults tx w.
Proof.
  revert faults tx w.
  induction quotes as [|q rest IH]; intros faults tx w; simpl; [done|].
  destruct (isDummyQuote q) eqn:Hq; simpl; [done|].
  rewrite Hq.
  destruct (txExec (mjoin (head faults)) symbol q tx) as [tx' [[|code|]|]];
    try done.
  destruct (code =? SQLITE_CONSTRAINT_UNIQUE); done.
Qed.

Lemma row_insert_table (tx : gmap string (gmap Z Quote)) symbol t q sym k :
  tx !! symbol = Some t ->
  row (<[symbol := <[Time q := q]> t]> tx) sym k
  = if decide (sym = symbol /\ k = Time q) then Some q else row tx sym k.
Proof.
  intros Ht. unfold row.
  destruct (decide (sym = symbol)) as [->|Hne].
  - rewrite lookup_insert_eq, Ht. simpl.
    destruct (decide (k = Time q)) as [->|Hk].
    + rewrite lookup_insert_eq. by rewrite decide_True.
    + rewrite lookup_insert_ne by done. rewrite decide_False; [done|tauto].
  - rewrite lookup_insert_ne by done. rewrite decide_False; [done|tauto].
Qed.

(** One INSERT: old rows stay, the only new row is the inserted quote,
    and a failed statement leaves the working copy as it was. *)
Lemma txExec_rows fault symbol q (tx tx' : gmap string (gmap Z Quote)) err :
  txExec fault symbol q tx = (tx', err) ->
  (forall sym k r, row tx sym k = Some r -> row tx' sym k = Some r)
  /\ (forall sym k r, row tx' sym k = Some r ->
        row tx sym k = Some r \/ (sym = symbol /\ k = Time q /\ r = q))
  /\ (is_Some err -> tx' = tx).
Proof.
  unfold txExec. intros H.
  destruct fault as [e|]; [by inversion H; subst; intuition|].
  destruct (tx !! symbol) as [t|] eqn:Ht; [|by inversion H; subst; intuition].
  destruct (t !! Time q) as [old|] eqn:Hold; [by inversion H; subst; intuition|].
  inversion H; subst; clear H. split_and!.
  - intros sym k r Hr. rewrite (row_insert_table _ _ _ _ _ _ Ht).
    case_decide as Hd; [|done]. destruct Hd as [-> ->].
    unfold row in Hr. rewrite Ht in Hr. simpl in Hr. congruence.
  - intros sym k r. rewrite (row_insert_table _ _ _ _ _ _ Ht).
    case_decide as Hd; [|by left]. destruct Hd as [-> ->].
    intros [= <-]. by right.
  - intros [? [=]].
Qed.

(** The loop touches only the log of the world. *)
Lemma insertLoop_frame symbol quotes faults tx w w' tx' err :
  insertLoop symbol quotes faults tx w = (w', tx', err) ->
  db w' = db w /\ txops w' = txops w /\ requests w' = requests w
  /\ exists extra, logs w' = logs w ++ extra.
Proof.
  revert faults tx w.
  induction quotes as [|q rest IH]; intros faults tx w; simpl.
  - intros [= <- <- <-]. split_and!; try done. exists []. by rewrite app_nil_r.
  - destruct (isDummyQuote q).
    { intros [= <- <- <-]. split_and!; try done. exists []. by rewrite app_nil_r. }
    destruct (txExec (mjoin (head faults)) symbol q tx) as [tx1 [[|code|msg]|]].
    + intros [= <- <- <-]. split_and!; try done. exists []. by rewrite app_nil_r.
    + destruct (code =? SQLITE_CONSTRAINT_UNIQUE).
      * intros H. apply IH in H as (Hd & Ht & Hr & extra & Hl). simpl in *.
        split_and!; try done. rewrite Hl, <- app_assoc. eauto.
      * intros [= <- <- <-]. simpl. split_and!; try done. eauto.
    + intros [= <- <- <-]. split_and!; try done. exists []. by rewrite app_nil_r.
    + apply IH.
Qed.

(** Rows of the working copy after the loop: every old row is kept, and
    every new row is a quote met before the first sentinel, stored under
    its own timestamp in the table of [symbol]. *)
Lemma insertLoop_rows symbol quotes faults
    (tx tx' : gmap string (gmap Z Quote)) w w' err :
  insertLoop symbol quotes faults tx w = (w', tx', err) ->
  (forall sym k r, row tx sym k = Some r -> row tx' sym k = Some r)
  /\ (forall sym k r, row tx' sym k = Some r ->
        row tx sym k = Some r
        \/ (sym = symbol /\ Time r = k /\ r ∈ real_prefix quotes)).
Proof.
  revert faults tx w.
  induction quotes as [|q rest IH]; intros faults tx w; simpl.
  - intros [= <- <- <-]. split; auto.
  - destruct (isDummyQuote q) eqn:Hq.
    { intros [= <- <- <-]. split; auto. }
    destruct (txExec (mjoin (head faults)) symbol q tx) as [tx1 err1] eqn:Hx.
    apply txExec_rows in Hx as (Hold & Hnew & Hfail).
    assert (Hcont : forall fs w1,
      insertLoop symbol rest fs tx1 w1 = (w', tx', err) ->
      (forall sym k r, row tx sym k = Some r -> row tx' sym k = Some r)
      /\ (forall sym k r, row tx' sym k = Some r ->
            row tx sym k = Some r
            \/ (sym = symbol /\ Time r = k /\ r ∈ q :: real_prefix rest))).
    { intros fs w1 H. apply IH in H as [Hold' Hnew']. split.
      - eauto.
      - intros sym k r Hr. apply Hnew' in Hr as [Hr|(-> & <- & Hin)].
        + apply Hnew in Hr as [Hr|(-> & -> & ->)]; [by left|right].
          split_and!; [done|done|apply list_elem_of_here].
        + right. split_and!; [done|done|by apply list_elem_of_further]. }
    assert (Hstop : is_Some err1 -> tx1 = tx' ->
      (forall sym k r, row tx sym k = Some r -> row tx' sym k = Some r)
      /\ (forall sym k r, row tx' sym k = Some r ->
            row tx sym k = Some r
            \/ (sym = symbol /\ Time r = k /\ r ∈ q :: real_prefix rest))).
    { intros He <-. rewrite (Hfail He). split; auto. }
    destruct err1 as [[|code|msg]|].
    + intros [= <- <- <-]. by apply Hstop.
    + destruct (code =? SQLITE_CONSTRAINT_UNIQUE).
      * apply Hcont.
      * intros [= <- <- <-]. by apply Hstop.
    + intros [= <- <- <-]. by apply Hstop.
    + apply Hcont.
Qed.

(** [createTableIfNeeded]: on success the table of [symbol] exists with
    the rows it had; on failure the database is as before.  No transaction
    boundary and no request is issued either way. *)
Lemma createTableIfNeeded_spec f symbol w w' created err :
  createTableIfNeeded f symbol w = (w', (created, err)) ->
  txops w' = txops w /\ requests w' = requests w
  /\ match err with
     | None => db w' = <[symbol := default ∅ (db w !! symbol)]> (db w)
     | Some _ => db w' = db w
     end.
Proof.
  unfold createTableIfNeeded, queryTable, createTable, execCreate.
  destruct (query_fault f) as [[|code|msg]|].
  - destruct (create_fault f) as [e|].
    + intros [= <- <- <-]. done.
    + destruct (db w !! symbol) as [t|] eqn:Ht.
      * intros [= <- <- <-]. done.
      * intros [= <- <- <-]. done.
  - intros [= <- <- <-]. done.
  - intros [= <- <- <-]. done.
  - destruct (db w !! symbol) as [t|] eqn:Ht.
    + intros [= <- <- <-]. simpl. split_and!; try done.
      by rewrite insert_id.
    + destruct (create_fault f) as [e|].
      * intros [= <- <- <-]. done.
      * intros [= <- <- <-]. done.
Qed.

Lemma row_insert_default (d : gmap string (gmap Z Quote)) symbol sym k :
  row (<[symbol := default ∅ (d !! symbol)]> d) sym k = row d sym k.
Proof.
  unfold row. destruct (decide (sym = symbol)) as [->|Hne].
  - rewrite lookup_insert_eq. destruct (d !! symbol); simpl; [done|].
    apply lookup_empty.
  - by rewrite lookup_insert_ne.
Qed.

Lemma createTableIfNeeded_rows f symbol w w' created err :
  createTableIfNeeded f symbol w = (w', (created, err)) ->
  forall sym k, row (db w') sym k = row (db w) sym k.
Proof.
  intros H sym k. apply createTableIfNeeded_spec in H as (_ & _ & H).
  destruct err; rewrite H; [done|apply row_insert_default].
Qed.

(** With no injected INSERT fault the loop never fails, and its working
    copy is the table with the missing rows of the real prefix added. *)
Lemma insertLoop_no_faults symbol quotes faults
    (tx : gmap string (gmap Z Quote)) (t : gmap Z Quote) w :
  Forall (eq None) faults ->
  tx !! symbol = Some t ->
  exists w',
    insertLoop symbol quotes faults tx w
    = (w', <[symbol := insert_missing (real_prefix quotes) t]> tx, None).
Proof.
  revert faults tx t w.
  induction quotes as [|q rest IH]; intros faults tx t w Hf Ht; simpl.
  - exists w. by rewrite insert_id.
  - destruct (isDummyQuote q) eqn:Hq.
    { exists w. simpl. by rewrite insert_id. }
    assert (Hhd : mjoin (head faults) = None).
    { destruct Hf as [|o fs <- _]; done. }
    assert (Htl : Forall (eq None) (tail faults)).
    { destruct Hf; [constructor|done]. }
    rewrite Hhd. unfold txExec. rewrite Ht. simpl.
    destruct (t !! Time q) as [old|] eqn:Hold.
    + change (2067 =? SQLITE_CONSTRAINT_UNIQUE) with true. simpl.
      apply IH; done.
    + destruct (IH (tail faults) (<[symbol := <[Time q := q]> t]> tx)
                  (<[Time q := q]> t) w Htl) as [w' Hw'].
      { apply lookup_insert_eq. }
      exists w'. rewrite Hw'. by rewrite insert_insert_eq.
Qed.

(** [writeToDB], case by case: either it returns [Quote{}] and an error
    before any commit, or it runs the loop to its end, commits and
    answers with the first quote of the batch. *)
Lemma writeToDB_cases f quotes symbol w :
  (exists w' e,
      writeToDB f quotes symbol w = (w', Returned (Quote_zero, Some e))
      /\ (forall sym k, row (db w') sym k = row (db w) sym k)
      /\ (txops w' = txops w \/ txops w' = txops w ++ [TxBegin])
      /\ requests w' = requests w)
  \/ (exists w1 created wl tx,
      createTableIfNeeded f symbol w = (w1, (created, None))
      /\ begin_fault f = None
      /\ insertLoop symbol quotes (exec_faults f) (db w1) (record_tx TxBegin w1)
         = (wl, tx, None)
      /\ writeToDB f quotes symbol w
         = ((txCommit (commit_fault f) tx wl).1, write_result quotes)).
Proof.
  unfold writeToDB.
  destruct (createTableIfNeeded f symbol w) as [w1 [created [e|]]] eqn:Hc.
  - left. eexists _, e. split; [done|]. simpl.
    pose proof (createTableIfNeeded_rows _ _ _ _ _ _ Hc) as Hrows.
    apply createTableIfNeeded_spec in Hc as (Ht & Hr & _). auto.
  - destruct (begin_fault f) as [e|] eqn:Hb.
    + left. eexists _, e. split; [done|].
      pose proof (createTableIfNeeded_rows _ _ _ _ _ _ Hc) as Hrows.
      apply createTableIfNeeded_spec in Hc as (Ht & Hr & _). auto.
    + destruct (insertLoop symbol quotes (exec_faults f) (db (record_tx TxBegin w1))
                  (record_tx TxBegin w1)) as [[wl tx] [e|]] eqn:Hl.
      * left. eexists _, e. split; [done|].
        pose proof (createTableIfNeeded_rows _ _ _ _ _ _ Hc) as Hrows.
        apply createTableIfNeeded_spec in Hc as (Ht & Hr & _).
        apply insertLoop_frame in Hl as (Hd & Ht' & Hr' & _). simpl in *.
        split_and!.
        -- intros sym k. rewrite Hd. apply Hrows.
        -- right. by rewrite Ht', Ht.
        -- by rewrite Hr'.
      * right. exists w1, created, wl, tx. split_and!; try done.
        unfold write_result.
        destruct (txCommit (commit_fault f) tx wl) as [wc ?].
        destruct (quotes !! 0%nat); done.
Qed.

Lemma writeToDB_real_prefix_world f quotes symbol w :
  (writeToDB f quotes symbol w).1 = (writeToDB f (real_prefix quotes) symbol w).1.
Proof.
  unfold writeToDB.
  destruct (createTableIfNeeded f symbol w) as [w1 [created [e|]]]; [done|].
  destruct (begin_fault f); [done|].
  rewrite (insertLoop_real_prefix symbol quotes).
  destruct (insertLoop symbol (real_prefix quotes) (exec_faults f)
              (db (record_tx TxBegin w1)) (record_tx TxBegin w1))
    as [[wl tx] [e|]]; [done|].
  destruct (txCommit (commit_fault f) tx wl) as [wc ?].
  destruct (quotes !! 0%nat), (real_prefix quotes !! 0%nat); done.
Qed.

(** Rows after a write: old rows, and real quotes of the batch met before
    its first sentinel. *)
Lemma writeToDB_new_rows f quotes symbol w sym k r :
  row (db (writeToDB f quotes symbol w).1) sym k = Some r ->
  row (db w) sym k = Some r
  \/ (sym = symbol /\ Time r = k /\ r ∈ real_prefix quotes).
Proof.
  destruct (writeToDB_cases f quotes symbol w)
    as [(w' & e & -> & Hrows & _)|(w1 & created & wl & tx & Hc & Hb & Hl & ->)].
  - simpl. rewrite Hrows. by left.
  - pose proof (createTableIfNeeded_rows _ _ _ _ _ _ Hc) as Hrows.
    pose proof (insertLoop_frame _ _ _ _ _ _ _ _ Hl) as (Hd & _).
    apply insertLoop_rows in Hl as [_ Hnew].
    unfold txCommit. destruct (commit_fault f); simpl.
    + rewrite Hd. simpl. rewrite Hrows. by left.
    + intros Hr. apply Hnew in Hr as [Hr|Hr]; [left|by right].
      by rewrite <- Hrows.
Qed.

(** Existing rows are never changed or removed by a write. *)
Lemma writeToDB_old_rows f quotes symbol w sym k r :
  row (db w) sym k = Some r ->
  row (db (writeToDB f quotes symbol w).1) sym k = Some r.
Proof.
  destruct (writeToDB_cases f quotes symbol w)
    as [(w' & e & -> & Hrows & _)|(w1 & created & wl & tx & Hc & Hb & Hl & ->)].
  - simpl. by rewrite Hrows.
  - pose proof (createTableIfNeeded_rows _ _ _ _ _ _ Hc) as Hrows.
    pose proof (insertLoop_frame _ _ _ _ _ _ _ _ Hl) as (Hd & _).
    apply insertLoop_rows in Hl as [Hold _].
    unfold txCommit. destruct (commit_fault f); simpl.
    + rewrite Hd. simpl. by rewrite Hrows.
    + intros Hr. apply Hold. simpl. by rewrite Hrows.
Qed.

(** A write that the engine does not disturb: what is committed. *)
Lemma writeToDB_committed f quotes symbol w :
  Forall (eq None) (exec_faults f) ->
  commit_fault f = None ->
  ~ failed (writeToDB f quotes symbol w).2 ->
  db (writeToDB f quotes symbol w).1
  = <[symbol := insert_missing (real_prefix quotes)
                  (default ∅ (db w !! symbol))]> (db w)
  /\ txops (writeToDB f quotes symbol w).1
     = txops w ++ [TxBegin; TxCommit true]
  /\ (writeToDB f quotes symbol w).2 = write_result quotes.
Proof.
  intros Hf Hcf Hok.
  destruct (writeToDB_cases f quotes symbol w)
    as [(w' & e & Hw & _)|(w1 & created & wl & tx & Hc & Hb & Hl & Hw)].
  { exfalso. apply Hok. rewrite Hw. by exists Quote_zero, e. }
  rewrite Hw. simpl. rewrite Hcf. simpl.
  apply createTableIfNeeded_spec in Hc as (Ht & _ & Hd).
  destruct (insertLoop_no_faults symbol quotes (exec_faults f) (db w1)
              (default ∅ (db w !! symbol)) (record_tx TxBegin w1) Hf)
    as [wl' Hl'].
  { rewrite Hd. apply lookup_insert_eq. }
  rewrite Hl' in Hl. injection Hl as -> <-.
  apply insertLoop_frame in Hl' as (_ & Ht' & _).
  split_and!; [|by rewrite Ht'; simpl; rewrite Ht, <- app_assoc|done].
  rewrite Hd. by rewrite insert_insert_eq.
Qed.

(** C4.  The writer goes through the batch in order and stops at the
    first sentinel: the world after the call is the one the sentinel-free
    prefix alone would give; every row the call adds is a real quote of
    that prefix, so no sentinel and nothing behind the first sentinel is
    stored; and when the call does not fail and its commit succeeds, the
    table is exactly the old table with the prefix's rows added in order
    (a timestamp already present being skipped). *)
Theorem writeToDB_stops_at_first_sentinel f quotes symbol w :
  (exists rest,
      quotes = real_prefix quotes ++ rest
      /\ (forall q, q ∈ real_prefix quotes -> isDummyQuote q = false)
      /\ (forall q, head rest = Some q -> isDummyQuote q = true))
  /\ (writeToDB f quotes symbol w).1
     = (writeToDB f (real_prefix quotes) symbol w).1
  /\ (forall sym k r,
        row (db (writeToDB f quotes symbol w).1) sym k = Some r ->
        row (db w) sym k = Some r
        \/ (sym = symbol /\ Time r = k /\ isDummyQuote r = false
            /\ r ∈ real_prefix quotes))
  /\ (Forall (eq None) (exec_faults f) ->
      commit_fault f = None ->
      ~ failed (writeToDB f quotes symbol w).2 ->
      db (writeToDB f quotes symbol w).1
      = <[symbol := insert_missing (real_prefix quotes)
                      (default ∅ (db w !! symbol))]> (db w)
      /\ txops (writeToDB f quotes symbol w).1
         = txops w ++ [TxBegin; TxCommit true]).
Proof.
  pose proof (real_prefix_split quotes) as Hsplit.
  split_and!.
  - exact Hsplit.
  - apply writeToDB_real_prefix_world.
  - intros sym k r Hr.
    apply writeToDB_new_rows in Hr as [Hr|(-> & <- & Hin)]; [by left|right].
    destruct Hsplit as (_ & _ & Hreal & _). auto.
  - intros Hf Hcf Hok.
    destruct (writeToDB_committed f quotes symbol w Hf Hcf Hok) as (? & ? & _).
    done.
Qed.

Lemma writeToDB_stops_at_first_sentinel_witness :
  let batch := [real_quote 7200 float_two; sentinel_quote 10800;
                real_quote 14400 float_two] in
  let w' := (writeToDB no_faults batch "BTC" (world_of btc_3600)).1 in
  real_prefix batch = [real_quote 7200 float_two]
  /\ db w' = <[ "BTC"%string :=
                 insert_missing [real_quote 7200 float_two]
                   {[ 3600 := real_quote 3600 float_one ]} ]> btc_3600
  /\ txops w' = [TxBegin; TxCommit true].
Proof.
  simpl. split; [reflexivity|].
  refine (proj2 (proj2 (proj2 (writeToDB_stops_at_first_sentinel no_faults
            [real_quote 7200 float_two; sentinel_quote 10800;
             real_quote 14400 float_two] "BTC" (world_of btc_3600))))
            (Forall_nil_2 _) eq_refl _).
  intros (q & e & H). vm_compute in H. discriminate.
Defined.

(** *** Uniqueness conflicts *)

Lemma insert_missing_cons q qs (t : gmap Z Quote) :
  insert_missing (q :: qs) t
  = insert_missing qs (match t !! Time q with
                       | Some _ => t
                       | None => <[Time q := q]> t
                       end).
Proof. reflexivity. Qed.

Lemma insert_missing_app qs1 qs2 (t : gmap Z Quote) :
  insert_missing (qs1 ++ qs2) t = insert_missing qs2 (insert_missing qs1 t).
Proof. unfold insert_missing. apply foldl_app. Qed.

Lemma insert_missing_keeps qs (t : gmap Z Quote) k r :
  t !! k = Some r -> insert_missing qs t !! k = Some r.
Proof.
  revert t. induction qs as [|q qs IH]; intros t Hk; [done|].
  rewrite insert_missing_cons. apply IH.
  destruct (t !! Time q) eqn:Hq; [done|].
  rewrite lookup_insert_ne; [done|]. intros <-. congruence.
Qed.

Lemma insert_missing_fresh qs (t : gmap Z Quote) k :
  t !! k = None ->
  (forall q, q ∈ qs -> Time q <> k) ->
  insert_missing qs t !! k = None.
Proof.
  revert t. induction qs as [|q qs IH]; intros t Hk Hne; [done|].
  rewrite insert_missing_cons. apply IH.
  - destruct (t !! Time q); [done|].
    rewrite lookup_insert_ne; [done|]. apply Hne, list_elem_of_here.
  - intros q' Hq'. apply Hne. by apply list_elem_of_further.
Qed.

(** The first record of a batch that carries a timestamp the table does
    not have yet is the row stored under that timestamp. *)
Lemma insert_missing_first pre q post (t : gmap Z Quote) :
  t !! Time q = None ->
  (forall q', q' ∈ pre -> Time q' <> Time q) ->
  insert_missing (pre ++ q :: post) t !! Time q = Some q.
Proof.
  intros Hk Hne. rewrite insert_missing_app, insert_missing_cons.
  rewrite (insert_missing_fresh pre t (Time q) Hk Hne).
  apply insert_missing_keeps, lookup_insert_eq.
Qed.

Lemma row_default (d : gmap string (gmap Z Quote)) symbol k :
  row d symbol k = default ∅ (d !! symbol) !! k.
Proof. unfold row. destruct (d !! symbol); simpl; [done|]. by rewrite lookup_empty. Qed.

Lemma row_insert_eq (d : gmap string (gmap Z Quote)) symbol t k :
  row (<[symbol := t]> d) symbol k = t !! k.
Proof. unfold row. by rewrite lookup_insert_eq. Qed.

(** Every record the loop reaches while its timestamp is in the table is
    reported as a duplicate. *)
Lemma insertLoop_logs_duplicates symbol quotes faults
    (tx tx' : gmap string (gmap Z Quote)) (t : gmap Z Quote) w w' err q :
  Forall (eq None) faults ->
  tx !! symbol = Some t ->
  insertLoop symbol quotes faults tx w = (w', tx', err) ->
  q ∈ real_prefix quotes ->
  is_Some (t !! Time q) ->
  LogDuplicate symbol (Time q) ∈ logs w'.
Proof.
  revert faults tx t w.
  induction quotes as [|q0 rest IH]; intros faults tx t w Hf Ht; simpl.
  - intros _ Hin. by apply elem_of_nil in Hin.
  - destruct (isDummyQuote q0) eqn:Hq0.
    { intros _ Hin. by apply elem_of_nil in Hin. }
    assert (Hhd : mjoin (head faults) = None).
    { destruct Hf as [|o fs <- _]; done. }
    assert (Htl : Forall (eq None) (tail faults)).
    { destruct Hf; [constructor|done]. }
    rewrite Hhd. unfold txExec. rewrite Ht. simpl.
    destruct (t !! Time q0) as [old|] eqn:Hold.
    + change (2067 =? SQLITE_CONSTRAINT_UNIQUE) with true. simpl.
      intros Hl [->|Hin]%elem_of_cons Hsome.
      * apply insertLoop_frame in Hl as (_ & _ & _ & extra & ->). simpl.
        rewrite <- app_assoc. apply elem_of_app. right.
        apply elem_of_app. left. apply list_elem_of_here.
      * eapply IH; eauto.
    + intros Hl [->|Hin]%elem_of_cons Hsome.
      * rewrite Hold in Hsome. by destruct Hsome.
      * eapply (IH _ _ (<[Time q0 := q0]> t)); eauto.
        -- apply lookup_insert_eq.
        -- destruct Hsome as [r Hr]. rewrite lookup_insert.
           case_decide; eauto.
Qed.

(** A write the engine does not disturb, on a non-empty batch, succeeds. *)
Lemma writeToDB_only_conflicts f quotes symbol w :
  only_conflicts f ->
  exists wl,
    insertLoop symbol quotes (exec_faults f)
      (<[symbol := default ∅ (db w !! symbol)]> (db w))
      (record_tx TxBegin
         (set_db (<[symbol := default ∅ (db w !! symbol)]> (db w)) w))
    = (wl, <[symbol := insert_missing (real_prefix quotes)
                         (default ∅ (db w !! symbol))]> (db w), None)
    /\ writeToDB f quotes symbol w
       = (set_db (<[symbol := insert_missing (real_prefix quotes)
                                (default ∅ (db w !! symbol))]> (db w))
            (record_tx (TxCommit true) wl),
          write_result quotes).
Proof.
  intros (Hq & Hc & Hb & Hf & Hcf).
  destruct (insertLoop_no_faults symbol quotes (exec_faults f)
              (<[symbol := default ∅ (db w !! symbol)]> (db w))
              (default ∅ (db w !! symbol))
              (record_tx TxBegin
                 (set_db (<[symbol := default ∅ (db w !! symbol)]> (db w)) w))
              Hf (lookup_insert_eq _ _ _)) as [wl Hl].
  rewrite insert_insert_eq in Hl.
  exists wl. split; [done|].
  unfold writeToDB, createTableIfNeeded, queryTable, createTable, execCreate.
  rewrite Hq, Hc, Hb.
  destruct (db w !! symbol) as [t|] eqn:Ht; simpl in *.
  - rewrite (insert_id (db w) symbol t Ht) in Hl.
    replace (set_db (db w) w) with w in Hl by (by destruct w).
    rewrite Hl, Hcf. simpl. unfold write_result. by destruct (quotes !! 0%nat).
  - rewrite Hl, Hcf. simpl.
    unfold write_result. by destruct (quotes !! 0%nat).
Qed.

(** C5 as stated fails: a real record with a fresh timestamp that lies
    behind a sentinel in the batch is not persisted, although the write
    succeeds and the batch contains a conflicting record. *)
Lemma writeToDB_conflict_skip_counterexample :
  let batch := [real_quote 3600 float_two; sentinel_quote 7200;
                real_quote 10800 float_two] in
  let r := writeToDB no_faults batch "BTC" (world_of btc_3600) in
  is_Some (row btc_3600 "BTC" (Time (real_quote 3600 float_two)))
  /\ real_quote 10800 float_two ∈ batch
  /\ isDummyQuote (real_quote 10800 float_two) = false
  /\ row btc_3600 "BTC" 10800 = None
  /\ r.2 = Returned (real_quote 3600 float_two, None)
  /\ row (db r.1) "BTC" 10800 = None.
Proof.
  simpl. split_and!.
  - by eexists.
  - apply list_elem_of_further, list_elem_of_further, list_elem_of_here.
  - reflexivity.
  - reflexivity.
  - vm_compute. reflexivity.
  - vm_compute. reflexivity.
Qed.

(** C5, amended.  When the engine raises no error of its own, a write of
    a non-empty batch succeeds and returns the first quote; no existing
    row is changed; every record met before the first sentinel whose
    timestamp is already in the table is logged as a duplicate and
    skipped; and every record met before the first sentinel whose
    timestamp is neither in the table nor carried by an earlier record of
    the batch is stored. *)
Theorem writeToDB_skips_uniqueness_conflicts f quotes symbol w q0 :
  only_conflicts f ->
  quotes !! 0%nat = Some q0 ->
  (writeToDB f quotes symbol w).2 = Returned (q0, None)
  /\ (forall sym k r,
        row (db w) sym k = Some r ->
        row (db (writeToDB f quotes symbol w).1) sym k = Some r)
  /\ (forall q,
        q ∈ real_prefix quotes ->
        is_Some (row (db w) symbol (Time q)) ->
        LogDuplicate symbol (Time q) ∈ logs (writeToDB f quotes symbol w).1)
  /\ (forall pre q post,
        real_prefix quotes = pre ++ q :: post ->
        row (db w) symbol (Time q) = None ->
        (forall q', q' ∈ pre -> Time q' <> Time q) ->
        row (db (writeToDB f quotes symbol w).1) symbol (Time q) = Some q).
Proof.
  intros Hf H0.
  destruct (writeToDB_only_conflicts f quotes symbol w Hf) as (wl & Hl & Hw).
  split_and!.
  - rewrite Hw. simpl. unfold write_result. by rewrite H0.
  - intros sym k r. apply writeToDB_old_rows.
  - intros q Hin Hsome. rewrite Hw. simpl.
    eapply insertLoop_logs_duplicates; [apply Hf| |exact Hl|exact Hin|].
    + apply lookup_insert_eq.
    + by rewrite <- row_default.
  - intros pre q post Hpre Hnone Hfresh. rewrite Hw. simpl.
    rewrite row_insert_eq, Hpre. apply insert_missing_first; [|done].
    by rewrite <- row_default.
Qed.

Lemma writeToDB_skips_uniqueness_conflicts_witness :
  let batch := [real_quote 3600 float_two; real_quote 7200 float_two] in
  only_conflicts no_faults
  /\ batch !! 0%nat = Some (real_quote 3600 float_two)
  /\ (writeToDB no_faults batch "BTC" (world_of btc_3600)).2
     = Returned (real_quote 3600 float_two, None).
Proof.
  simpl.
  assert (H1 : only_conflicts no_faults).
  { unfold only_conflicts, no_faults. simpl. split_and!; try reflexivity.
    constructor. }
  split; [exact H1|]. split; [reflexivity|].
  exact (proj1 (writeToDB_skips_uniqueness_conflicts no_faults
                  [real_quote 3600 float_two; real_quote 7200 float_two]
                  "BTC" (world_of btc_3600) (real_quote 3600 float_two)
                  H1 eq_refl)).
Defined.

(** *** Errors that abort the write *)


(** An injected INSERT fault that is not a uniqueness conflict, at a
    record the loop reaches, ends the loop with that error. *)
Lemma insertLoop_hard_fault symbol pre q post fs fs' err
    (tx : gmap string (gmap Z Quote)) w :
  is_Some (tx !! symbol) ->
  (forall q', q' ∈ pre ++ [q] -> isDummyQuote q' = false) ->
  length fs = length pre ->
  Forall lets_loop_continue fs ->
  err <> SqliteError SQLITE_CONSTRAINT_UNIQUE ->
  exists w' tx',
    insertLoop symbol (pre ++ q :: post) (fs ++ Some err :: fs') tx w
    = (w', tx', Some err).
Proof.
  revert fs tx w.
  induction pre as [|p pre IH]; intros fs tx w Htx Hreal Hlen Hfs Herr.
  - destruct fs; [|done]. simpl.
    rewrite (Hreal q) by apply list_elem_of_here. simpl.
    destruct err as [|code|msg]; [by eauto| |by eauto].
    destruct (code =? SQLITE_CONSTRAINT_UNIQUE) eqn:Hcode; [|by eauto].
    apply Z.eqb_eq in Hcode. congruence.
  - destruct fs as [|o fs]; [done|]. simpl in Hlen.
    apply Forall_cons in Hfs as [Ho Hfs]. simpl.
    rewrite (Hreal p) by apply list_elem_of_here.
    assert (Hreal' : forall q', q' ∈ pre ++ [q] -> isDummyQuote q' = false).
    { intros q' Hq'. apply Hreal. by apply list_elem_of_further. }
    destruct Htx as [t Ht].
    destruct Ho as [->| ->]; simpl.
    + unfold txExec. rewrite Ht. destruct (t !! Time p).
      * change (2067 =? SQLITE_CONSTRAINT_UNIQUE) with true. simpl.
        apply IH; eauto with lia.
      * apply IH; eauto with lia. rewrite lookup_insert_eq. by eexists.
    + change (2067 =? SQLITE_CONSTRAINT_UNIQUE) with true. simpl.
      apply IH; eauto with lia.
Qed.

Lemma index_last {A : Type} (l : list A) :
  index l (Z.of_nat (length l) - 1) = last l.
Proof.
  unfold index. destruct l as [|x l]; [done|].
  rewrite last_lookup.
  replace (Z.of_nat (length (x :: l)) - 1 <? 0) with false
    by (symmetry; apply Z.ltb_ge; simpl; lia).
  f_equal. simpl. lia.
Qed.

(** Whatever error a write returns, it returns it with [Quote{}], having
    issued no commit and changed no row. *)
Lemma writeToDB_error_no_commit f quotes symbol w q err :
  (writeToDB f quotes symbol w).2 = Returned (q, Some err) ->
  q = Quote_zero
  /\ (exists ops, txops (writeToDB f quotes symbol w).1 = txops w ++ ops
                  /\ no_commit ops)
  /\ (forall sym k, row (db (writeToDB f quotes symbol w).1) sym k
                    = row (db w) sym k).
Proof.
  destruct (writeToDB_cases f quotes symbol w)
    as [(w' & e & -> & Hrows & Hops & _)|(w1 & created & wl & tx & _ & _ & _ & ->)].
  - simpl. intros [= <- <-]. split_and!; [done| |done].
    destruct Hops as [->| ->].
    + exists []. split; [by rewrite app_nil_r|]. intros ok Hin.
      by apply elem_of_nil in Hin.
    + exists [TxBegin]. split; [done|]. intros ok Hin.
      apply list_elem_of_singleton in Hin. discriminate.
  - simpl. unfold write_result. destruct (quotes !! 0%nat); discriminate.
Qed.

Lemma createTableIfNeeded_table_error f symbol w err :
  (queryTable (query_fault f) symbol (db w) = Some err /\ err <> ErrNoRows)
  \/ (queryTable (query_fault f) symbol (db w) = Some ErrNoRows
      /\ (execCreate (create_fault f) symbol (db w)).2 = Some err) ->
  (createTableIfNeeded f symbol w).2.2 = Some err.
Proof.
  unfold createTableIfNeeded, createTable.
  intros [[-> Hne]|[-> Hc]].
  - by destruct err.
  - destruct (execCreate (create_fault f) symbol (db w)) as [d e0].
    simpl in Hc. by subst e0.
Qed.

Lemma createTableIfNeeded_table_ready f symbol w :
  table_ready f symbol w ->
  exists created w1,
    createTableIfNeeded f symbol w = (w1, (created, None))
    /\ is_Some (db w1 !! symbol).
Proof.
  unfold table_ready, createTableIfNeeded, createTable.
  intros [Hq|[Hq Hc]]; rewrite Hq.
  - exists false, w. split; [done|].
    unfold queryTable in Hq. destruct (query_fault f); [done|].
    destruct (db w !! symbol); [by eexists|done].
  - unfold execCreate in *. destruct (create_fault f); [done|].
    destruct (db w !! symbol) eqn:Ht; [done|].
    eexists true, _. split; [done|]. simpl. rewrite lookup_insert_eq.
    by eexists.
Qed.

(** Every error met before the commit is what the write returns. *)
Lemma writeToDB_returns_raised f quotes symbol w err :
  raised_before_commit f quotes symbol w err ->
  (writeToDB f quotes symbol w).2 = Returned (Quote_zero, Some err).
Proof.
  intros [Hq Hne|Hq Hc|Hready Hb|pre q post fs fs' Hready Hb -> Hreal Hx Hlen Hfs Herr].
  - pose proof (createTableIfNeeded_table_error f symbol w err
                  (or_introl (conj Hq Hne))) as H.
    unfold writeToDB.
    destruct (createTableIfNeeded f symbol w) as [w1 [created e0]].
    simpl in H. by subst e0.
  - pose proof (createTableIfNeeded_table_error f symbol w err
                  (or_intror (conj Hq Hc))) as H.
    unfold writeToDB.
    destruct (createTableIfNeeded f symbol w) as [w1 [created e0]].
    simpl in H. by subst e0.
  - destruct (createTableIfNeeded_table_ready f symbol w Hready)
      as (created & w1 & Hct & _).
    unfold writeToDB. by rewrite Hct, Hb.
  - destruct (createTableIfNeeded_table_ready f symbol w Hready)
      as (created & w1 & Hct & Htab).
    destruct (insertLoop_hard_fault symbol pre q post fs fs' err (db w1)
                (record_tx TxBegin w1) Htab Hreal Hlen Hfs Herr)
      as (wl & tx' & Hl).
    unfold writeToDB. rewrite Hct, Hb, Hx. simpl. by rewrite Hl.
Qed.

(** C7 as stated fails: a failing commit is a persistence error during
    the write, neither a uniqueness conflict nor a sentinel stop, and the
    call does not abort on it: it returns the first quote and no error,
    the driver goes on to the next page instead of ending [Failed], and
    the row is not in the database. *)
Lemma writeToDB_commit_error_counterexample :
  let e := constant_env (page [real_quote 3600 float_two]) failing_commit in
  let r := writeToDB failing_commit [real_quote 3600 float_two] "BTC"
             (world_of ∅) in
  commit_fault failing_commit = Some (SqliteError 5)
  /\ SqliteError 5 <> SqliteError SQLITE_CONSTRAINT_UNIQUE
  /\ r.2 = Returned (real_quote 3600 float_two, None)
  /\ txops r.1 = [TxBegin; TxCommit false]
  /\ row (db r.1) "BTC" 3600 = None
  /\ (getHistoricalFor 1 e "BTC" 7200 (world_of ∅)).2 = Running 3599
  /\ (forall err, (getHistoricalFor 1 e "BTC" 7200 (world_of ∅)).2
                  <> Failed err).
Proof.
  simpl. split_and!; try reflexivity; discriminate.
Qed.

(** C7, amended.  Every persistence error the write meets before its
    commit (at the table lookup, the CREATE TABLE, the Begin, or an
    INSERT the loop reaches, the uniqueness conflict apart) aborts the
    call: it returns [Quote{}] with that error; no commit is issued, so
    that no row of the database has changed, also not the rows inserted
    earlier in the same transaction; and the driver that issued the
    write ends [Failed] with that error. *)
Theorem writeToDB_persistence_error_aborts
    fuel e symbol unixtime w err final :
  transport_err (api e symbol unixtime) = None ->
  last (Data (api e symbol unixtime)) = Some final ->
  isDummyQuote final = false ->
  raised_before_commit (dbfaults e symbol unixtime)
    (Data (api e symbol unixtime)) symbol
    (record_request symbol unixtime w) err ->
  exists w' ops,
    writeToDB (dbfaults e symbol unixtime) (Data (api e symbol unixtime))
      symbol (record_request symbol unixtime w)
    = (w', Returned (Quote_zero, Some err))
    /\ txops w' = txops w ++ ops
    /\ no_commit ops
    /\ (forall sym k, row (db w') sym k = row (db w) sym k)
    /\ getHistoricalFor (S fuel) e symbol unixtime w = (w', Failed err).
Proof.
  intros Htr Hlast Hfinal Hraised.
  pose proof (writeToDB_returns_raised _ _ _ _ _ Hraised) as Hres.
  pose proof (writeToDB_error_no_commit _ _ _ _ _ _ Hres)
    as (_ & (ops & Hops & Hnc) & Hrows).
  destruct (writeToDB (dbfaults e symbol unixtime)
              (Data (api e symbol unixtime)) symbol
              (record_request symbol unixtime w)) as [w' res] eqn:Hw.
  simpl in *. subst res.
  exists w', ops. split_and!; try done.
  cbn [getHistoricalFor]. unfold activation, get.
  by rewrite Htr, index_last, Hlast, Hfinal, Hw.
Qed.

Lemma writeToDB_persistence_error_aborts_witness :
  let data := [real_quote 3600 float_two; real_quote 7200 float_two] in
  let e := constant_env (page data) failing_second_insert in
  raised_before_commit failing_second_insert data "BTC"
    (record_request "BTC" 7200 (world_of ∅)) disk_error
  /\ exists w',
      getHistoricalFor 1 e "BTC" 7200 (world_of ∅) = (w', Failed disk_error)
      /\ row (db w') "BTC" 3600 = row ∅ "BTC" 3600.
Proof.
  simpl.
  assert (Hraised : raised_before_commit failing_second_insert
                      [real_quote 3600 float_two; real_quote 7200 float_two]
                      "BTC" (record_request "BTC" 7200 (world_of ∅))
                      disk_error).
  { apply (raised_by_insert _ _ _ _ _ [real_quote 3600 float_two]
             (real_quote 7200 float_two) [] [None] []).
    - right. split; reflexivity.
    - reflexivity.
    - reflexivity.
    - intros q' Hq'. apply elem_of_cons in Hq' as [->|Hq']; [reflexivity|].
      apply list_elem_of_singleton in Hq'. by subst q'.
    - reflexivity.
    - reflexivity.
    - constructor; [by left|constructor].
    - discriminate. }
  split; [exact Hraised|].
  destruct (writeToDB_persistence_error_aborts 0
              (constant_env
                 (page [real_quote 3600 float_two; real_quote 7200 float_two])
                 failing_second_insert)
              "BTC" 7200 (world_of ∅) disk_error (real_quote 7200 float_two)
              eq_refl eq_refl eq_refl Hraised)
    as (w' & ops & _ & _ & _ & Hrows & Hdrv).
  exists w'. split; [exact Hdrv|]. exact (Hrows "BTC"%string 3600).
Defined.

(** *** The commit *)

Lemma createTableIfNeeded_commit_fault c f symbol w :
  createTableIfNeeded (with_commit_fault c f) symbol w
  = createTableIfNeeded f symbol w.
Proof. reflexivity. Qed.

(** C10.  The value [writeToDB] returns does not depend on whether the
    commit succeeds: with a failing commit it returns what it returns
    with a working one.  When that is the success answer (the first quote
    and no error) after a failed commit, the database has none of the
    batch: every row is as before the call. *)
Theorem writeToDB_ignores_commit_result f quotes symbol w err :
  (forall c,
      (writeToDB (with_commit_fault c f) quotes symbol w).2
      = (writeToDB f quotes symbol w).2)
  /\ (forall q,
        (writeToDB (with_commit_fault (Some err) f) quotes symbol w).2
        = Returned (q, None) ->
        quotes !! 0%nat = Some q
        /\ TxCommit false
             ∈ txops (writeToDB (with_commit_fault (Some err) f) quotes symbol w).1
        /\ (forall sym k,
              row (db (writeToDB (with_commit_fault (Some err) f)
                         quotes symbol w).1) sym k
              = row (db w) sym k)).
Proof.
  split.
  - intros c. unfold writeToDB. rewrite createTableIfNeeded_commit_fault.
    destruct (createTableIfNeeded f symbol w) as [w1 [created [e|]]]; [done|].
    simpl. destruct (begin_fault f); [done|].
    destruct (insertLoop symbol quotes (exec_faults f) (db w1)
                (record_tx TxBegin w1)) as [[wl tx] [e|]]; [done|].
    destruct c, (commit_fault f); simpl; by destruct (quotes !! 0%nat).
  - intros q.
    destruct (writeToDB_cases (with_commit_fault (Some err) f) quotes symbol w)
      as [(w' & e & -> & _)|(w1 & created & wl & tx & Hc & _ & Hl & ->)];
      [discriminate|].
    simpl. unfold write_result.
    destruct (quotes !! 0%nat) as [q0|]; [|discriminate].
    intros [= <-].
    pose proof (createTableIfNeeded_rows _ _ _ _ _ _ Hc) as Hrows.
    apply insertLoop_frame in Hl as (Hd & _). split_and!.
    + done.
    + apply elem_of_app. right. apply list_elem_of_here.
    + intros sym k. rewrite Hd. simpl. apply Hrows.
Qed.

Lemma writeToDB_ignores_commit_result_witness :
  let r := writeToDB failing_commit
             [real_quote 3600 float_two] "BTC" (world_of ∅) in
  r.2 = Returned (real_quote 3600 float_two, None)
  /\ row (db r.1) "BTC" 3600 = row ∅ "BTC" 3600.
Proof.
  simpl.
  assert (H : (writeToDB failing_commit
                 [real_quote 3600 float_two] "BTC" (world_of ∅)).2
              = Returned (real_quote 3600 float_two, None))
    by (vm_compute; reflexivity).
  split; [exact H|].
  exact (proj2 (proj2 (proj2 (writeToDB_ignores_commit_result no_faults
                  [real_quote 3600 float_two] "BTC" (world_of ∅) (SqliteError 5))
                  (real_quote 3600 float_two) H)) "BTC" 3600).
Defined.

(** ** The Backfill Driver *)

Lemma get_page e symbol unixtime w :
  transport_err (api e symbol unixtime) = None ->
  get e symbol unixtime w
  = (record_request symbol unixtime w, Some (Data (api e symbol unixtime))).
Proof. unfold get. by intros ->. Qed.

(** C1 as stated fails: the page ends with a sentinel and starts with a
    real quote; the driver ends [Done], and the real quote is not in the
    database (its table does not even exist). *)
Lemma getHistoricalFor_final_page_counterexample :
  let data := [real_quote 3600 float_two; sentinel_quote 7200] in
  let r := getHistoricalFor 1 (constant_env (page data) no_faults)
             "BTC" 7200 (world_of ∅) in
  last data = Some (sentinel_quote 7200)
  /\ isDummyQuote (sentinel_quote 7200) = true
  /\ isDummyQuote (real_quote 3600 float_two) = false
  /\ r.2 = Done "BTC"
  /\ row (db r.1) "BTC" 3600 = None
  /\ db r.1 = ∅.
Proof. simpl. split_and!; reflexivity. Qed.

(** C1, amended.  When the last quote of the fetched page is a sentinel,
    the driver ends [Done] without calling the writer: the only change to
    the world is the request itself; the database, the transaction
    boundaries and the log are as before. *)
Theorem getHistoricalFor_sentinel_page_done fuel e symbol unixtime w final :
  transport_err (api e symbol unixtime) = None ->
  last (Data (api e symbol unixtime)) = Some final ->
  isDummyQuote final = true ->
  getHistoricalFor (S fuel) e symbol unixtime w
  = (record_request symbol unixtime w, Done symbol)
  /\ db (record_request symbol unixtime w) = db w
  /\ txops (record_request symbol unixtime w) = txops w
  /\ logs (record_request symbol unixtime w) = logs w.
Proof.
  intros Htr Hlast Hfinal. split_and!; try reflexivity.
  simpl. unfold activation. rewrite (get_page _ _ _ _ Htr).
  by rewrite index_last, Hlast, Hfinal.
Qed.

Lemma getHistoricalFor_sentinel_page_done_witness :
  let data := [real_quote 3600 float_two; sentinel_quote 7200] in
  last data = Some (sentinel_quote 7200)
  /\ isDummyQuote (sentinel_quote 7200) = true
  /\ getHistoricalFor 1 (constant_env (page data) no_faults)
       "BTC" 7200 (world_of btc_3600)
     = (record_request "BTC" 7200 (world_of btc_3600), Done "BTC").
Proof.
  simpl. split; [reflexivity|]. split; [reflexivity|].
  exact (proj1 (getHistoricalFor_sentinel_page_done 0
                  (constant_env
                     (page [real_quote 3600 float_two; sentinel_quote 7200])
                     no_faults)
                  "BTC" 7200 (world_of btc_3600) (sentinel_quote 7200)
                  eq_refl eq_refl eq_refl)).
Defined.

(** C9 fails on the code: nothing guards the empty page.  The driver's
    [data[len(data)-1]] is an access at index -1, which panics and takes
    the process down before the writer is called; and the writer itself,
    given an empty batch by any caller, commits and then panics on
    [quotes[0]]. *)
Theorem getHistoricalFor_empty_page_panics fuel e symbol unixtime w :
  transport_err (api e symbol unixtime) = None ->
  Data (api e symbol unixtime) = [] ->
  index (Data (api e symbol unixtime))
    (Z.of_nat (length (Data (api e symbol unixtime))) - 1) = None
  /\ getHistoricalFor (S fuel) e symbol unixtime w
     = (record_request symbol unixtime w, ProcessPanic)
  /\ (forall f, only_conflicts f -> (writeToDB f [] symbol w).2 = Panic).
Proof.
  intros Htr Hdata. split_and!.
  - by rewrite Hdata.
  - simpl. unfold activation. rewrite (get_page _ _ _ _ Htr). by rewrite Hdata.
  - intros f Hf.
    destruct (writeToDB_only_conflicts f [] symbol w Hf) as (wl & _ & ->).
    reflexivity.
Qed.

Lemma getHistoricalFor_empty_page_panics_witness :
  getHistoricalFor 1 (constant_env (page []) no_faults) "BTC" 7200 (world_of ∅)
  = (record_request "BTC" 7200 (world_of ∅), ProcessPanic).
Proof.
  exact (proj1 (proj2 (getHistoricalFor_empty_page_panics 0
                         (constant_env (page []) no_faults) "BTC" 7200
                         (world_of ∅) eq_refl eq_refl))).
Defined.

(** *** Decode failures *)

Lemma get_without_decode_errors e symbol unixtime w :
  get (without_decode_errors e) symbol unixtime w = get e symbol unixtime w.
Proof. reflexivity. Qed.

Lemma activation_without_decode_errors e symbol unixtime w :
  activation (without_decode_errors e) symbol unixtime w
  = activation e symbol unixtime w.
Proof. reflexivity. Qed.

Lemma getHistoricalFor_without_decode_errors fuel e symbol unixtime w :
  getHistoricalFor fuel (without_decode_errors e) symbol unixtime w
  = getHistoricalFor fuel e symbol unixtime w.
Proof.
  revert unixtime w. induction fuel as [|fuel IH]; intros unixtime w; [done|].
  simpl. rewrite activation_without_decode_errors.
  destruct (activation e symbol unixtime w) as [w' [u|[s0|err]| |]]; auto.
Qed.

(** C3 as stated fails, for both kinds of malformed body.  With a
    mistyped field the decoder reports an error, yet the fetcher hands
    the decoded record to the driver, which writes it and goes on to the
    next page.  With a truncated body the fetcher returns an empty page
    and the driver panics on it.  In neither case does an error reach the
    error channel, and in neither case does the run end [Failed]. *)
Lemma get_malformed_body_counterexample :
  let e := constant_env mistyped_body no_faults in
  let e' := constant_env truncated_body no_faults in
  let q := mkQuote 3600 float_two float_two float_two float_two float_one
             float_zero in
  is_Some (decode_err (api e "BTC" 7200))
  /\ (get e "BTC" 7200 (world_of ∅)).2 = Some [q]
  /\ (activation e "BTC" 7200 (world_of ∅)).2 = Recurse 3599
  /\ row (db (activation e "BTC" 7200 (world_of ∅)).1) "BTC" 3600 = Some q
  /\ (getHistoricalFor 1 e "BTC" 7200 (world_of ∅)).2 = Running 3599
  /\ is_Some (decode_err (api e' "BTC" 7200))
  /\ (get e' "BTC" 7200 (world_of ∅)).2 = Some []
  /\ (getHistoricalFor 1 e' "BTC" 7200 (world_of ∅)).2 = ProcessPanic.
Proof.
  simpl. split_and!.
  - by eexists.
  - reflexivity.
  - vm_compute. reflexivity.
  - vm_compute. reflexivity.
  - vm_compute. reflexivity.
  - by eexists.
  - reflexivity.
  - reflexivity.
Qed.

(** C3, amended.  A malformed body is not an error for anyone.  The
    fetcher returns what the decoder stored: nothing when the body is not
    a JSON value, the records as far as they fit when a field has the
    wrong type; and the driver's run (how it ends, what it stores, what
    it requests) is the run it has when the same quotes arrive in a
    well-formed body. *)
Theorem getHistoricalFor_blind_to_decode_errors fuel e symbol unixtime w :
  transport_err (api e symbol unixtime) = None ->
  (forall x,
      body (api e symbol unixtime) = NotJSON x ->
      (get e symbol unixtime w).2 = Some [])
  /\ (forall x filled,
        body (api e symbol unixtime) = Mistyped x filled ->
        (get e symbol unixtime w).2 = Some filled)
  /\ (getHistoricalFor fuel e symbol unixtime w).2
     = (getHistoricalFor fuel (without_decode_errors e) symbol unixtime w).2
  /\ db (getHistoricalFor fuel e symbol unixtime w).1
     = db (getHistoricalFor fuel (without_decode_errors e) symbol unixtime w).1
  /\ requests (getHistoricalFor fuel e symbol unixtime w).1
     = requests
         (getHistoricalFor fuel (without_decode_errors e) symbol unixtime w).1.
Proof.
  intros Htr. rewrite getHistoricalFor_without_decode_errors.
  split_and!; try done.
  - intros x Hb. rewrite (get_page _ _ _ _ Htr). unfold Data. by rewrite Hb.
  - intros x filled Hb. rewrite (get_page _ _ _ _ Htr). unfold Data.
    by rewrite Hb.
Qed.

Lemma getHistoricalFor_blind_to_decode_errors_witness :
  let e := constant_env mistyped_body no_faults in
  let q := mkQuote 3600 float_two float_two float_two float_two float_one
             float_zero in
  transport_err (api e "BTC" 7200) = None
  /\ (get e "BTC" 7200 (world_of ∅)).2 = Some [q]
  /\ (getHistoricalFor 3 e "BTC" 7200 (world_of ∅)).2
     = (getHistoricalFor 3 (without_decode_errors e) "BTC" 7200 (world_of ∅)).2.
Proof.
  simpl. split; [reflexivity|].
  destruct (getHistoricalFor_blind_to_decode_errors 3
              (constant_env mistyped_body no_faults) "BTC" 7200 (world_of ∅)
              eq_refl) as (_ & Hm & Hrun & _).
  split; [|exact Hrun].
  exact (Hm _ _ eq_refl).
Defined.

(** ** Transport errors and the coordinator *)

Lemma run_exited e schedule status w :
  run e schedule (Exited status w) = Exited status w.
Proof. unfold run. induction schedule as [|a schedule IH]; [done|]. exact IH. Qed.

(** C2 as stated fails: with BTC unreachable and ETH fine, the BTC driver
    does not end [Failed], it exits the process; once it has run, the
    process is gone whatever the scheduler picks next, the ETH driver has
    done nothing and main has received no signal. *)
Lemma main_transport_error_counterexample :
  let p := main None ["BTC"; "ETH"]%string 7200 ∅ in
  let w1 := log_line (LogFatal net_down)
              (record_request "BTC" 7200
                 (mkWorld ∅ [LogFetching "BTC"; LogFetching "ETH"] [] [])) in
  transport_err (api btc_unreachable "BTC" 7200) = Some net_down
  /\ transport_err (api btc_unreachable "ETH" 7200) = None
  /\ (getHistoricalFor 1 btc_unreachable "BTC" 7200 (world_of ∅)).2 = ProcessExit
  /\ (getHistoricalFor 1 btc_unreachable "BTC" 7200 (world_of ∅)).2
     <> Failed net_down
  /\ p = Live [InDriver "BTC" 7200; InDriver "ETH" 7200] 0
           (mkWorld ∅ [LogFetching "BTC"; LogFetching "ETH"] [] [])
  /\ step btc_unreachable (Drive 0) p = Exited 1 w1
  /\ run btc_unreachable [Drive 0; Drive 1; Receive 0; Receive 1] p = Exited 1 w1
  /\ db w1 = ∅.
Proof. simpl. split_and!; try reflexivity. discriminate. Qed.

(** C2, amended.  When the fetch of an instrument fails with a transport
    error, the fetcher logs it and exits the process with status 1: the
    driver's run ends in the process exit and not in [Failed], nothing is
    sent to the coordinator, and from then on no step of any other driver
    or of main takes place. *)
Theorem transport_error_exits_process fuel e gs i w k symbol cursor err :
  gs !! k = Some (InDriver symbol cursor) ->
  transport_err (api e symbol cursor) = Some err ->
  getHistoricalFor (S fuel) e symbol cursor w
  = (log_line (LogFatal err) (record_request symbol cursor w), ProcessExit)
  /\ step e (Drive k) (Live gs i w)
     = Exited 1 (log_line (LogFatal err) (record_request symbol cursor w))
  /\ (forall schedule,
        run e (Drive k :: schedule) (Live gs i w)
        = Exited 1 (log_line (LogFatal err) (record_request symbol cursor w))).
Proof.
  intros Hk Htr.
  assert (Hact : activation e symbol cursor w
                 = (log_line (LogFatal err) (record_request symbol cursor w),
                    OsExit)).
  { unfold activation, get. by rewrite Htr. }
  assert (Hstep : step e (Drive k) (Live gs i w)
                  = Exited 1 (log_line (LogFatal err)
                                (record_request symbol cursor w))).
  { simpl. by rewrite Hk, Hact. }
  split_and!.
  - simpl. by rewrite Hact.
  - exact Hstep.
  - intros schedule.
    change (run e (Drive k :: schedule) (Live gs i w))
      with (run e schedule (step e (Drive k) (Live gs i w))).
    rewrite Hstep. apply run_exited.
Qed.

Lemma transport_error_exits_process_witness :
  transport_err (api btc_unreachable "BTC" 7200) = Some net_down
  /\ step btc_unreachable (Drive 0)
       (Live [InDriver "BTC" 7200; InDriver "ETH" 7200] 0 (world_of ∅))
     = Exited 1 (log_line (LogFatal net_down)
                   (record_request "BTC" 7200 (world_of ∅))).
Proof.
  split; [reflexivity|].
  exact (proj1 (proj2 (transport_error_exits_process 0 btc_unreachable
                         [InDriver "BTC" 7200; InDriver "ETH" 7200] 0
                         (world_of ∅) 0 "BTC" 7200 net_down
                         eq_refl eq_refl))).
Defined.

(** ** The cursor *)

Lemma writeToDB_requests f quotes symbol w :
  requests (writeToDB f quotes symbol w).1 = requests w.
Proof.
  destruct (writeToDB_cases f quotes symbol w)
    as [(w' & e & -> & _ & _ & Hr)|(w1 & created & wl & tx & Hc & _ & Hl & ->)].
  - exact Hr.
  - apply createTableIfNeeded_spec in Hc as (_ & Hr & _).
    apply insertLoop_frame in Hl as (_ & _ & Hr' & _).
    unfold txCommit. destruct (commit_fault f); simpl; by rewrite Hr'.
Qed.

Lemma writeToDB_returns_first f quotes symbol w q :
  (writeToDB f quotes symbol w).2 = Returned (q, None) ->
  quotes !! 0%nat = Some q.
Proof.
  destruct (writeToDB_cases f quotes symbol w)
    as [(w' & e & -> & _)|(w1 & created & wl & tx & _ & _ & _ & ->)];
    [discriminate|].
  simpl. unfold write_result. destruct (quotes !! 0%nat); [|discriminate].
  by intros [= ->].
Qed.

Lemma activation_requests e symbol unixtime w :
  requests (activation e symbol unixtime w).1
  = requests w ++ [(symbol, unixtime)].
Proof.
  unfold activation, get.
  destruct (transport_err (api e symbol unixtime)); [done|].
  destruct (index _ _) as [final|]; [|done].
  destruct (isDummyQuote final); [done|].
  pose proof (writeToDB_requests (dbfaults e symbol unixtime)
                (Data (api e symbol unixtime)) symbol
                (record_request symbol unixtime w)) as Hr.
  destruct (writeToDB _ _ _ _) as [w' [[q [err|]]|]]; exact Hr.
Qed.

(** The cursor of the next activation is the first quote's time, minus
    one in [int64] arithmetic. *)
Lemma activation_recurse e symbol unixtime w untilDate :
  (activation e symbol unixtime w).2 = Recurse untilDate ->
  exists q0,
    Data (api e symbol unixtime) !! 0%nat = Some q0
    /\ untilDate = Int64.sub (Time q0) 1.
Proof.
  unfold activation, get.
  destruct (transport_err (api e symbol unixtime)); [discriminate|].
  destruct (index _ _) as [final|]; [|discriminate].
  destruct (isDummyQuote final); [discriminate|].
  pose proof (writeToDB_returns_first (dbfaults e symbol unixtime)
                (Data (api e symbol unixtime)) symbol
                (record_request symbol unixtime w)) as Hfirst.
  destruct (writeToDB _ _ _ _) as [w' [[q [err|]]|]]; try discriminate.
  simpl. intros [= <-]. exists q. split; [by apply Hfirst|done].
Qed.

(** C6 as stated fails: every quote of every page is at most the
    requested time, and still the second request is later than the
    first: the first quote sits at the smallest [int64], and its time
    minus one wraps around to the largest. *)
Lemma cursor_monotonicity_counterexample :
  page_bounded env_min_time
  /\ int64_times env_min_time
  /\ Int64.in_range 0
  /\ requests (getHistoricalFor 2 env_min_time "BTC" 0 (world_of ∅)).1
     = [("BTC"%string, 0); ("BTC"%string, Int64.max_int)]
  /\ ~ strictly_decreasing [0; Int64.max_int].
Proof.
  split_and!.
  - intros symbol t q Ht Hq. apply list_elem_of_singleton in Hq. subst q.
    apply Ht.
  - intros symbol t q Hq. apply list_elem_of_singleton in Hq. subst q.
    vm_compute. split; discriminate.
  - vm_compute. split; discriminate.
  - vm_compute. reflexivity.
  - intros [H _]. vm_compute in H. discriminate.
Qed.

(** C6, amended.  A successful write returns the first quote of the
    batch; the next cursor is that quote's time minus one; and when every
    quote of a page is at most the requested time and no first quote sits
    at the smallest [int64] (so that the subtraction cannot wrap), the
    requested times of one run are strictly decreasing. *)
Theorem cursor_strictly_decreasing fuel e symbol unixtime w :
  int64_times e ->
  page_bounded e ->
  first_above_min e ->
  Int64.in_range unixtime ->
  (forall f quotes w0 q,
      (writeToDB f quotes symbol w0).2 = Returned (q, None) ->
      quotes !! 0%nat = Some q)
  /\ (forall t w0 u,
        Int64.in_range t ->
        (activation e symbol t w0).2 = Recurse u ->
        exists q0, Data (api e symbol t) !! 0%nat = Some q0
                   /\ u = Time q0 - 1 /\ u < t)
  /\ exists cs,
      requests (getHistoricalFor fuel e symbol unixtime w).1
      = requests w ++ (pair symbol <$> cs)
      /\ strictly_decreasing cs
      /\ (forall c, c ∈ cs -> c <= unixtime).
Proof.
  intros Hint Hbound Hmin Hrange.
  assert (Hnext : forall t w0 u,
             Int64.in_range t ->
             (activation e symbol t w0).2 = Recurse u ->
             exists q0, Data (api e symbol t) !! 0%nat = Some q0
                        /\ u = Time q0 - 1 /\ u < t).
  { intros t w0 u Ht Hu.
    apply activation_recurse in Hu as (q0 & Hq0 & ->).
    assert (Hin : q0 ∈ Data (api e symbol t)).
    { apply list_elem_of_lookup. eauto. }
    exists q0. split; [done|].
    rewrite Int64_sub_one by eauto.
    split; [done|]. specialize (Hbound symbol t q0 Ht Hin). lia. }
  split_and!.
  - intros f quotes w0 q. apply writeToDB_returns_first.
  - exact Hnext.
  - revert unixtime w Hrange.
    induction fuel as [|fuel IH]; intros unixtime w Hrange.
    + exists []. simpl. split_and!; [by rewrite app_nil_r|done|].
      intros c Hc. by apply elem_of_nil in Hc.
    + simpl.
      pose proof (activation_requests e symbol unixtime w) as Hreq.
      pose proof (Hnext unixtime w) as Hn.
      destruct (activation e symbol unixtime w) as [w' act]. simpl in *.
      assert (Hone : exists cs,
                 requests w' = requests w ++ (pair symbol <$> cs)
                 /\ strictly_decreasing cs
                 /\ (forall c, c ∈ cs -> c <= unixtime)).
      { exists [unixtime]. split; [done|]. split; [simpl; tauto|].
        intros c Hc. apply list_elem_of_singleton in Hc. lia. }
      destruct act as [u|[s0|err]| |]; try exact Hone.
      destruct (Hn u Hrange eq_refl) as (q0 & Hq0 & Hu & Hlt).
      assert (Hru : Int64.in_range u).
      { assert (Hin : q0 ∈ Data (api e symbol unixtime)).
        { apply list_elem_of_lookup. eauto. }
        pose proof (Hint _ _ _ Hin) as Hq. pose proof (Hmin _ _ _ Hq0) as Hm.
        unfold Int64.in_range, Int64.min_int, Int64.max_int in *. lia. }
      destruct (IH u w' Hru) as (cs & Hcs & Hdec & Hle).
      exists (unixtime :: cs). split_and!.
      * rewrite Hcs, Hreq, <- app_assoc. done.
      * simpl. split; [|done]. destruct cs as [|c cs]; [done|].
        specialize (Hle c (list_elem_of_here _ _)). lia.
      * intros c [->|Hc]%elem_of_cons; [lia|].
        specialize (Hle c Hc). lia.
Qed.

Lemma cursor_strictly_decreasing_witness :
  int64_times env_on_time
  /\ page_bounded env_on_time
  /\ first_above_min env_on_time
  /\ Int64.in_range 7200
  /\ exists cs,
      requests (getHistoricalFor 2 env_on_time "BTC" 7200 (world_of ∅)).1
      = requests (world_of ∅) ++ (pair "BTC"%string <$> cs)
      /\ strictly_decreasing cs.
Proof.
  assert (H1 : int64_times env_on_time).
  { intros symbol t q. unfold env_on_time. simpl. case_decide as Ht; simpl.
    - intros Hq. apply list_elem_of_singleton in Hq. subst q.
      unfold Int64.in_range. simpl. lia.
    - intros Hq. by apply elem_of_nil in Hq. }
  assert (H2 : page_bounded env_on_time).
  { intros symbol t q _. unfold env_on_time. simpl. case_decide as Ht; simpl.
    - intros Hq. apply list_elem_of_singleton in Hq. subst q. simpl. lia.
    - intros Hq. by apply elem_of_nil in Hq. }
  assert (H3 : first_above_min env_on_time).
  { intros symbol t q. unfold env_on_time. simpl. case_decide as Ht; simpl.
    - intros [= <-]. simpl. lia.
    - discriminate. }
  assert (H4 : Int64.in_range 7200) by (vm_compute; split; discriminate).
  split; [exact H1|]. split; [exact H2|]. split; [exact H3|].
  split; [exact H4|].
  destruct (proj2 (proj2 (cursor_strictly_decreasing 2 env_on_time "BTC" 7200
                            (world_of ∅) H1 H2 H3 H4)))
    as (cs & Hcs & Hdec & _).
  exists cs. split; [exact Hcs|exact Hdec].
Defined.

(** * Further properties of the code *)

(** ** [writeToDB] *)

Lemma insertLoop_other_tables symbol quotes faults
    (tx tx' : gmap string (gmap Z Quote)) w w' err sym :
  insertLoop symbol quotes faults tx w = (w', tx', err) ->
  sym <> symbol ->
  tx' !! sym = tx !! sym.
Proof.
  intros H Hne. revert faults tx w H.
  induction quotes as [|q rest IH]; intros faults tx w; simpl.
  - by intros [= <- <- <-].
  - destruct (isDummyQuote q); [by intros [= <- <- <-]|].
    assert (Hx : forall tx1 err1,
               txExec (mjoin (head faults)) symbol q tx = (tx1, err1) ->
               tx1 !! sym = tx !! sym).
    { unfold txExec. intros tx1 err1.
      destruct (mjoin (head faults)); [by intros [= <- <-]|].
      destruct (tx !! symbol) as [t|]; [|by intros [= <- <-]].
      destruct (t !! Time q); [by intros [= <- <-]|].
      intros [= <- <-]. by rewrite lookup_insert_ne. }
    destruct (txExec (mjoin (head faults)) symbol q tx) as [tx1 err1].
    specialize (Hx tx1 err1 eq_refl).
    destruct err1 as [[|code|msg]|].
    + intros [= <- <- <-]. done.
    + destruct (code =? SQLITE_CONSTRAINT_UNIQUE).
      * intros H. apply IH in H. congruence.
      * intros [= <- <- <-]. done.
    + intros [= <- <- <-]. done.
    + intros H. apply IH in H. congruence.
Qed.

Lemma writeToDB_tables_frame f quotes symbol w sym :
  sym <> symbol ->
  db (writeToDB f quotes symbol w).1 !! sym = db w !! sym.
Proof.
  intros Hne. unfold writeToDB.
  destruct (createTableIfNeeded f symbol w) as [w1 [created err]] eqn:Hc.
  apply createTableIfNeeded_spec in Hc as (_ & _ & Hd).
  assert (H1 : db w1 !! sym = db w !! sym).
  { destruct err; rewrite Hd; [done|]. by rewrite lookup_insert_ne. }
  destruct err as [e|]; [done|].
  destruct (begin_fault f); [done|].
  destruct (insertLoop symbol quotes (exec_faults f)
              (db (record_tx TxBegin w1)) (record_tx TxBegin w1))
    as [[wl tx] err] eqn:Hl.
  pose proof (insertLoop_other_tables _ _ _ _ _ _ _ _ sym Hl (not_eq_sym (not_eq_sym Hne)))
    as Htx.
  apply insertLoop_frame in Hl as (Hdl & _).
  destruct err as [e|]; simpl; [by rewrite Hdl|].
  unfold txCommit. destruct (commit_fault f); simpl.
  - destruct (quotes !! 0%nat); simpl; by rewrite Hdl.
  - destruct (quotes !! 0%nat); simpl; by rewrite Htx.
Qed.

(** X3.  A write never touches the table of another symbol, however it
    ends: that table is the same map as before, row by row. *)
Theorem writeToDB_other_tables f quotes symbol w sym :
  sym <> symbol ->
  db (writeToDB f quotes symbol w).1 !! sym = db w !! sym
  /\ (forall k, row (db (writeToDB f quotes symbol w).1) sym k
                = row (db w) sym k).
Proof.
  intros Hne. pose proof (writeToDB_tables_frame f quotes symbol w sym Hne) as H.
  split; [exact H|]. intros k. unfold row. by rewrite H.
Qed.

Lemma writeToDB_other_tables_witness :
  db (writeToDB no_faults [real_quote 7200 float_two] "ETH"
        (world_of btc_3600)).1 !! "BTC"%string
  = btc_3600 !! "BTC"%string.
Proof.
  refine (proj1 (writeToDB_other_tables no_faults
                   [real_quote 7200 float_two] "ETH" (world_of btc_3600)
                   "BTC" _)).
  discriminate.
Defined.

Lemma insert_missing_covers qs (t : gmap Z Quote) q :
  q ∈ qs -> is_Some (insert_missing qs t !! Time q).
Proof.
  revert t. induction qs as [|q0 qs IH]; intros t Hq.
  - by apply elem_of_nil in Hq.
  - rewrite insert_missing_cons. apply elem_of_cons in Hq as [->|Hq]; [|by apply IH].
    destruct (t !! Time q0) as [r|] eqn:Hr.
    + exists r. by apply insert_missing_keeps.
    + exists q0. apply insert_missing_keeps, lookup_insert_eq.
Qed.

Lemma insert_missing_present qs (t : gmap Z Quote) :
  (forall q, q ∈ qs -> is_Some (t !! Time q)) ->
  insert_missing qs t = t.
Proof.
  induction qs as [|q0 qs IH]; intros Hall; [done|].
  rewrite insert_missing_cons.
  destruct (Hall q0 (list_elem_of_here _ _)) as [r ->].
  apply IH. intros q Hq. apply Hall. by apply list_elem_of_further.
Qed.

(** X4.  Writing a batch a second time changes nothing: when the engine raises
    no error of its own, the database after the second write is the
    database after the first, and both calls return the same value. *)
Theorem writeToDB_twice_is_once f f' quotes symbol w :
  only_conflicts f ->
  only_conflicts f' ->
  db (writeToDB f' quotes symbol (writeToDB f quotes symbol w).1).1
  = db (writeToDB f quotes symbol w).1
  /\ (writeToDB f' quotes symbol (writeToDB f quotes symbol w).1).2
     = (writeToDB f quotes symbol w).2.
Proof.
  intros Hf Hf'.
  destruct (writeToDB_only_conflicts f quotes symbol w Hf) as (wl & _ & Hw).
  destruct (writeToDB_only_conflicts f' quotes symbol
              (writeToDB f quotes symbol w).1 Hf') as (wl' & _ & Hw').
  rewrite Hw'. rewrite Hw. simpl. split; [|done].
  rewrite lookup_insert_eq. simpl. rewrite insert_insert_eq.
  f_equal. apply insert_missing_present.
  intros q Hq. by apply insert_missing_covers.
Qed.

Lemma writeToDB_twice_is_once_witness :
  let batch := [real_quote 3600 float_two; real_quote 7200 float_two] in
  db (writeToDB no_faults batch "BTC"
        (writeToDB no_faults batch "BTC" (world_of btc_3600)).1).1
  = db (writeToDB no_faults batch "BTC" (world_of btc_3600)).1.
Proof.
  simpl.
  assert (H1 : only_conflicts no_faults).
  { unfold only_conflicts, no_faults. simpl. split_and!; try reflexivity.
    constructor. }
  exact (proj1 (writeToDB_twice_is_once no_faults no_faults
                  [real_quote 3600 float_two; real_quote 7200 float_two]
                  "BTC" (world_of btc_3600) H1 H1)).
Defined.





(** X7.  One call, one transaction: a write issues nothing, or a Begin, or a
    Begin followed by one Commit; the Commit is issued exactly when the
    call does not return an error, and it is a successful one exactly
    when the engine does not fail it. *)
Theorem writeToDB_one_transaction f quotes symbol w :
  exists ops,
    txops (writeToDB f quotes symbol w).1 = txops w ++ ops
    /\ (failed (writeToDB f quotes symbol w).2 ->
        ops = [] \/ ops = [TxBegin])
    /\ (~ failed (writeToDB f quotes symbol w).2 ->
        ops = [TxBegin; TxCommit (bool_decide (commit_fault f = None))]).
Proof.
  destruct (writeToDB_cases f quotes symbol w)
    as [(w' & e & Hw & _ & Hops & _)|(w1 & created & wl & tx & Hc & _ & Hl & Hw)].
  - rewrite Hw. simpl.
    assert (Hfail : failed (Returned (Quote_zero, Some e))) by (by eexists _, _).
    destruct Hops as [Hops|Hops].
    + exists []. rewrite app_nil_r. split_and!; [done|by left|done].
    + exists [TxBegin]. split_and!; [done|by right|done].
  - rewrite Hw. simpl.
    apply createTableIfNeeded_spec in Hc as (Hops & _ & _).
    apply insertLoop_frame in Hl as (_ & Hops' & _ & _). simpl in Hops'.
    exists [TxBegin; TxCommit (bool_decide (commit_fault f = None))].
    split_and!.
    + unfold txCommit. destruct (commit_fault f); simpl;
        rewrite Hops', Hops, <- app_assoc; done.
    + intros (q & e & Hqe). unfold write_result in Hqe.
      destruct (quotes !! 0%nat); discriminate.
    + done.
Qed.

Lemma writeToDB_one_transaction_witness :
  exists ops,
    txops (writeToDB failing_insert [real_quote 3600 float_two] "BTC"
             (world_of ∅)).1 = [] ++ ops
    /\ (ops = [] \/ ops = [TxBegin]).
Proof.
  destruct (writeToDB_one_transaction failing_insert
              [real_quote 3600 float_two] "BTC" (world_of ∅))
    as (ops & H1 & H2 & _).
  exists ops. split; [exact H1|]. apply H2.
  exists Quote_zero, disk_error. vm_compute. reflexivity.
Defined.

(** ** [getHistoricalFor] *)

Lemma activation_old_rows e symbol unixtime w sym k r :
  row (db w) sym k = Some r ->
  row (db (activation e symbol unixtime w).1) sym k = Some r.
Proof.
  intros Hr. unfold activation, get.
  destruct (transport_err (api e symbol unixtime)); [done|].
  destruct (index _ _) as [final|]; [|done].
  destruct (isDummyQuote final); [done|].
  pose proof (writeToDB_old_rows (dbfaults e symbol unixtime)
                (Data (api e symbol unixtime)) symbol
                (record_request symbol unixtime w) sym k r Hr) as H.
  destruct (writeToDB _ _ _ _) as [w' [[q [err|]]|]]; exact H.
Qed.

Lemma activation_new_rows e symbol unixtime w sym k r :
  row (db (activation e symbol unixtime w).1) sym k = Some r ->
  row (db w) sym k = Some r
  \/ (sym = symbol /\ Time r = k /\ isDummyQuote r = false
      /\ r ∈ Data (api e symbol unixtime)).
Proof.
  unfold activation, get.
  destruct (transport_err (api e symbol unixtime)); [by left|].
  destruct (index _ _) as [final|]; [|by left].
  destruct (isDummyQuote final); [by left|].
  pose proof (writeToDB_new_rows (dbfaults e symbol unixtime)
                (Data (api e symbol unixtime)) symbol
                (record_request symbol unixtime w) sym k r) as H.
  assert (Hin : row (db (writeToDB (dbfaults e symbol unixtime)
                           (Data (api e symbol unixtime)) symbol
                           (record_request symbol unixtime w)).1) sym k
                = Some r ->
                row (db w) sym k = Some r
                \/ (sym = symbol /\ Time r = k /\ isDummyQuote r = false
                    /\ r ∈ Data (api e symbol unixtime))).
  { intros Hr. apply H in Hr as [Hr|(-> & <- & Hpre)]; [by left|right].
    destruct (real_prefix_split (Data (api e symbol unixtime)))
      as (rest & Heq & Hreal & _).
    split_and!; [done|done|by apply Hreal|].
    rewrite Heq. apply elem_of_app. by left. }
  destruct (writeToDB _ _ _ _) as [w' [[q [err|]]|]]; exact Hin.
Qed.

Lemma activation_other_tables e symbol unixtime w sym :
  sym <> symbol ->
  db (activation e symbol unixtime w).1 !! sym = db w !! sym.
Proof.
  intros Hne. unfold activation, get.
  destruct (transport_err (api e symbol unixtime)); [done|].
  destruct (index _ _) as [final|]; [|done].
  destruct (isDummyQuote final); [done|].
  pose proof (writeToDB_tables_frame (dbfaults e symbol unixtime)
                (Data (api e symbol unixtime)) symbol
                (record_request symbol unixtime w) sym Hne) as H.
  destruct (writeToDB _ _ _ _) as [w' [[q [err|]]|]]; exact H.
Qed.

(** X9.  The database only grows during a run: whatever the remote side and
    the engine do, a row that is there stays there, unchanged. *)
Theorem getHistoricalFor_append_only fuel e symbol unixtime w sym k r :
  row (db w) sym k = Some r ->
  row (db (getHistoricalFor fuel e symbol unixtime w).1) sym k = Some r.
Proof.
  revert unixtime w. induction fuel as [|fuel IH]; intros unixtime w Hr; [done|].
  simpl.
  pose proof (activation_old_rows e symbol unixtime w sym k r Hr) as H.
  destruct (activation e symbol unixtime w) as [w' [u|[s0|err]| |]]; auto.
Qed.

Lemma getHistoricalFor_append_only_witness :
  row (db (getHistoricalFor 3 env_on_time "BTC" 7200 (world_of btc_3600)).1)
    "BTC" 3600
  = Some (real_quote 3600 float_one).
Proof.
  apply (getHistoricalFor_append_only 3 env_on_time "BTC" 7200
           (world_of btc_3600) "BTC" 3600 (real_quote 3600 float_one)).
  reflexivity.
Defined.

Lemma getHistoricalFor_requests_extend fuel e symbol unixtime w :
  exists reqs,
    requests (getHistoricalFor fuel e symbol unixtime w).1 = requests w ++ reqs.
Proof.
  revert unixtime w. induction fuel as [|fuel IH]; intros unixtime w.
  - exists []. simpl. by rewrite app_nil_r.
  - simpl. pose proof (activation_requests e symbol unixtime w) as Hreq.
    destruct (activation e symbol unixtime w) as [w' [u|[s0|err]| |]];
      simpl in Hreq; try (by eexists).
    destruct (IH u w') as [reqs Hr]. exists ((symbol, unixtime) :: reqs).
    rewrite Hr, Hreq, <- app_assoc. done.
Qed.

(** X10.  A run stores nothing of its own making: every row it adds is a
    real quote of a page it fetched itself, that is, of the answer to one
    of the requests the run sent for its symbol, stored in that symbol's
    table under the quote's own time. *)
Theorem getHistoricalFor_rows_from_pages fuel e symbol unixtime w sym k r :
  row (db (getHistoricalFor fuel e symbol unixtime w).1) sym k = Some r ->
  row (db w) sym k = Some r
  \/ (sym = symbol /\ Time r = k /\ isDummyQuote r = false
      /\ exists t reqs,
          requests (getHistoricalFor fuel e symbol unixtime w).1
          = requests w ++ reqs
          /\ (symbol, t) ∈ reqs
          /\ r ∈ Data (api e symbol t)).
Proof.
  revert unixtime w. induction fuel as [|fuel IH]; intros unixtime w; [by left|].
  cbn [getHistoricalFor].
  pose proof (activation_new_rows e symbol unixtime w sym k r) as Hnew.
  pose proof (activation_requests e symbol unixtime w) as Hreq.
  destruct (activation e symbol unixtime w) as [w' act] eqn:Hact.
  simpl in Hnew, Hreq.
  assert (Hend : forall w2,
             (exists more, requests w2 = requests w' ++ more) ->
             row (db w') sym k = Some r ->
             row (db w) sym k = Some r
             \/ (sym = symbol /\ Time r = k /\ isDummyQuote r = false
                 /\ exists t reqs,
                     requests w2 = requests w ++ reqs
                     /\ (symbol, t) ∈ reqs
                     /\ r ∈ Data (api e symbol t))).
  { intros w2 [more Hmore] Hr.
    apply Hnew in Hr as [Hr|(? & ? & ? & Hin)]; [by left|right].
    split_and!; try done.
    exists unixtime, ((symbol, unixtime) :: more). split_and!.
    - rewrite Hmore, Hreq, <- app_assoc. done.
    - apply list_elem_of_here.
    - done. }
  assert (Hstop : row (db w') sym k = Some r ->
             row (db w) sym k = Some r
             \/ (sym = symbol /\ Time r = k /\ isDummyQuote r = false
                 /\ exists t reqs,
                     requests w' = requests w ++ reqs
                     /\ (symbol, t) ∈ reqs
                     /\ r ∈ Data (api e symbol t))).
  { apply Hend. exists []. by rewrite app_nil_r. }
  destruct act as [u|[s0|err]| |]; try exact Hstop.
  intros Hr.
  apply IH in Hr as [Hr|(-> & <- & Hreal & t & reqs & Hreqs & Hin & Hdata)].
  - apply Hend; [|done]. apply getHistoricalFor_requests_extend.
  - right. split_and!; try done.
    exists t, ((symbol, unixtime) :: reqs). split_and!.
    + rewrite Hreqs, Hreq, <- app_assoc. done.
    + by apply list_elem_of_further.
    + done.
Qed.

Lemma getHistoricalFor_rows_from_pages_witness :
  row ∅ "BTC" 7200 = Some (real_quote 7200 float_two)
  \/ ("BTC"%string = "BTC"%string /\ 7200 = 7200
      /\ isDummyQuote (real_quote 7200 float_two) = false
      /\ exists t reqs,
          requests (getHistoricalFor 1 env_on_time "BTC" 7200 (world_of ∅)).1
          = [] ++ reqs
          /\ ("BTC"%string, t) ∈ reqs
          /\ real_quote 7200 float_two ∈ Data (api env_on_time "BTC" t)).
Proof.
  apply (getHistoricalFor_rows_from_pages 1 env_on_time "BTC" 7200
           (world_of ∅) "BTC" 7200 (real_quote 7200 float_two)).
  vm_compute. reflexivity.
Defined.

(** X11.  A run leaves the tables of the other symbols alone. *)
Theorem getHistoricalFor_other_tables fuel e symbol unixtime w sym :
  sym <> symbol ->
  db (getHistoricalFor fuel e symbol unixtime w).1 !! sym = db w !! sym.
Proof.
  intros Hne. revert unixtime w.
  induction fuel as [|fuel IH]; intros unixtime w; [done|].
  simpl.
  pose proof (activation_other_tables e symbol unixtime w sym Hne) as H.
  destruct (activation e symbol unixtime w) as [w' [u|[s0|err]| |]];
    try exact H.
  rewrite IH. exact H.
Qed.

Lemma getHistoricalFor_other_tables_witness :
  db (getHistoricalFor 3 env_on_time "ETH" 7200 (world_of btc_3600)).1
    !! "BTC"%string
  = btc_3600 !! "BTC"%string.
Proof.
  apply (getHistoricalFor_other_tables 3 env_on_time "ETH" 7200
           (world_of btc_3600) "BTC").
  discriminate.
Defined.

(** X12.  The requests of a run: at most one per activation, all for the run's
    symbol, the first one at the starting time, and each later one at the
    time of the first quote of the page before, minus one in [int64]. *)
Theorem getHistoricalFor_requests fuel e symbol unixtime w :
  exists cs,
    requests (getHistoricalFor fuel e symbol unixtime w).1
    = requests w ++ (pair symbol <$> cs)
    /\ (length cs <= fuel)%nat
    /\ (fuel <> 0%nat -> head cs = Some unixtime)
    /\ (forall i c c',
          cs !! i = Some c -> cs !! S i = Some c' ->
          exists q0, Data (api e symbol c) !! 0%nat = Some q0
                     /\ c' = Int64.sub (Time q0) 1).
Proof.
  revert unixtime w. induction fuel as [|fuel IH]; intros unixtime w.
  - exists []. simpl. rewrite app_nil_r. split_and!; try done.
  - simpl.
    pose proof (activation_requests e symbol unixtime w) as Hreq.
    pose proof (activation_recurse e symbol unixtime w) as Hrec.
    destruct (activation e symbol unixtime w) as [w' act]. simpl in *.
    assert (Hone : exists cs,
               requests w' = requests w ++ (pair symbol <$> cs)
               /\ (length cs <= S fuel)%nat
               /\ (S fuel <> 0%nat -> head cs = Some unixtime)
               /\ (forall i c c',
                     cs !! i = Some c -> cs !! S i = Some c' ->
                     exists q0, Data (api e symbol c) !! 0%nat = Some q0
                                /\ c' = Int64.sub (Time q0) 1)).
    { exists [unixtime]. simpl. split_and!; [done|lia|done|].
      intros i c c' _ Hc'. done. }
    destruct act as [u|[s0|err]| |]; try exact Hone.
    destruct (IH u w') as (cs & Hcs & Hlen & Hhd & Hchain).
    exists (unixtime :: cs). simpl. split_and!.
    + rewrite Hcs, Hreq, <- app_assoc. done.
    + lia.
    + done.
    + intros [|i] c c'; simpl.
      * intros [= <-] Hc'.
        assert (Hfuel : fuel <> 0%nat).
        { intros ->. destruct cs; [done|simpl in Hlen; lia]. }
        specialize (Hhd Hfuel). destruct cs as [|c0 cs]; [done|].
        simpl in Hhd, Hc'. assert (c' = u) as -> by congruence.
        by apply Hrec.
      * apply Hchain.
Qed.

Lemma getHistoricalFor_requests_witness :
  exists cs,
    requests (getHistoricalFor 2 env_on_time "BTC" 7200 (world_of ∅)).1
    = [] ++ (pair "BTC"%string <$> cs)
    /\ head cs = Some 7200.
Proof.
  destruct (getHistoricalFor_requests 2 env_on_time "BTC" 7200 (world_of ∅))
    as (cs & H1 & _ & H3 & _).
  exists cs. split; [exact H1|]. apply H3. discriminate.
Defined.

(** *** Termination *)

Lemma activation_recurse_last e symbol unixtime w untilDate :
  (activation e symbol unixtime w).2 = Recurse untilDate ->
  exists final,
    last (Data (api e symbol unixtime)) = Some final
    /\ isDummyQuote final = false.
Proof.
  unfold activation, get.
  destruct (transport_err (api e symbol unixtime)); [discriminate|].
  rewrite index_last.
  destruct (last _) as [final|]; [|discriminate].
  destruct (isDummyQuote final) eqn:Hfinal; [discriminate|].
  intros _. by exists final.
Qed.

(** A page within bounds moves the cursor down and keeps it an [int64]. *)
Lemma activation_recurse_below e symbol unixtime w untilDate :
  int64_times e ->
  page_bounded e ->
  first_above_min e ->
  Int64.in_range unixtime ->
  (activation e symbol unixtime w).2 = Recurse untilDate ->
  untilDate < unixtime /\ Int64.in_range untilDate.
Proof.
  intros Hint Hbound Hmin Hrange Hrec.
  apply activation_recurse in Hrec as (q0 & Hq0 & ->).
  assert (Hin : q0 ∈ Data (api e symbol unixtime)).
  { apply list_elem_of_lookup. eauto. }
  pose proof (Hint _ _ _ Hin) as Hq. pose proof (Hmin _ _ _ Hq0) as Hm.
  pose proof (Hbound _ _ _ Hrange Hin) as Hb.
  rewrite Int64_sub_one by done.
  unfold Int64.in_range, Int64.min_int, Int64.max_int in *. lia.
Qed.

Lemma getHistoricalFor_ends_within n e symbol t0 :
  int64_times e ->
  page_bounded e ->
  first_above_min e ->
  exhausted_below e symbol t0 ->
  forall unixtime w c,
    Int64.in_range unixtime ->
    unixtime - t0 + 1 <= Z.of_nat n ->
    (getHistoricalFor (S n) e symbol unixtime w).2 <> Running c.
Proof.
  intros Hint Hbound Hmin Hex.
  induction n as [|n IH]; intros unixtime w c Hrange Hn.
  - simpl.
    pose proof (activation_recurse_last e symbol unixtime w) as Hlast.
    destruct (activation e symbol unixtime w) as [w' [u|[s0|err]| |]];
      try discriminate.
    destruct (Hlast u eq_refl) as (final & Hf & Hreal).
    rewrite (Hex unixtime final) in Hreal; [discriminate|lia|done].
  - change (getHistoricalFor (S (S n)) e symbol unixtime w)
      with (match activation e symbol unixtime w with
            | (w', Recurse untilDate) =>
                getHistoricalFor (S n) e symbol untilDate w'
            | (w', Send (OnDonec s)) => (w', Done s)
            | (w', Send (OnErrc err)) => (w', Failed err)
            | (w', OsExit) => (w', ProcessExit)
            | (w', Crash) => (w', ProcessPanic)
            end).
    pose proof (activation_recurse_below e symbol unixtime w) as Hbelow.
    destruct (activation e symbol unixtime w) as [w' [u|[s0|err]| |]];
      try discriminate.
    destruct (Hbelow u Hint Hbound Hmin Hrange eq_refl) as [Hlt Hru].
    apply IH; [done|lia].
Qed.

(** X13.  When the remote side has nothing below [t0] (pages asked for earlier
    times end with a sentinel), its pages are within bounds and no first
    quote sits at the smallest [int64], a run started at [unixtime] ends
    (in Done, Failed, the process exit or a panic) within
    [unixtime - t0 + 2] activations. *)
Theorem getHistoricalFor_terminates e symbol t0 unixtime w :
  int64_times e ->
  page_bounded e ->
  first_above_min e ->
  exhausted_below e symbol t0 ->
  Int64.in_range unixtime ->
  forall c,
    (getHistoricalFor (S (Z.to_nat (unixtime - t0 + 1))) e symbol unixtime w).2
    <> Running c.
Proof.
  intros Hint Hbound Hmin Hex Hrange c.
  apply (getHistoricalFor_ends_within _ e symbol t0); try done. lia.
Qed.

Lemma getHistoricalFor_terminates_witness :
  int64_times env_since_epoch
  /\ page_bounded env_since_epoch
  /\ first_above_min env_since_epoch
  /\ exhausted_below env_since_epoch "BTC" 0
  /\ forall c,
      (getHistoricalFor (S (Z.to_nat (2 - 0 + 1))) env_since_epoch "BTC" 2
         (world_of ∅)).2 <> Running c.
Proof.
  assert (H1 : int64_times env_since_epoch).
  { intros symbol t q. unfold env_since_epoch. simpl.
    repeat case_decide; simpl; intros Hq;
      try (by apply elem_of_nil in Hq);
      apply list_elem_of_singleton in Hq; subst q;
      unfold Int64.in_range, Int64.min_int, Int64.max_int in *; simpl; lia. }
  assert (H2 : page_bounded env_since_epoch).
  { intros symbol t q _. unfold env_since_epoch. simpl.
    repeat case_decide; simpl; intros Hq;
      try (by apply elem_of_nil in Hq);
      apply list_elem_of_singleton in Hq; subst q; simpl; lia. }
  assert (H3 : first_above_min env_since_epoch).
  { intros symbol t q. unfold env_since_epoch. simpl.
    repeat case_decide; simpl; try discriminate; intros [= <-]; simpl;
      unfold Int64.min_int in *; lia. }
  assert (H4 : exhausted_below env_since_epoch "BTC" 0).
  { intros t final Ht. unfold env_since_epoch. simpl.
    repeat case_decide; simpl; try discriminate; try lia.
    by intros [= <-]. }
  assert (H5 : Int64.in_range 2) by (vm_compute; split; discriminate).
  split; [exact H1|]. split; [exact H2|]. split; [exact H3|].
  split; [exact H4|].
  exact (getHistoricalFor_terminates env_since_epoch "BTC" 0 2 (world_of ∅)
           H1 H2 H3 H4 H5).
Defined.

(** *** A remote side that does not move *)

(** X14.  Nothing in the driver checks that the cursor moves: when the remote
    side answers every request for the symbol with the same page, whose
    last quote is real, and the engine raises no error of its own, the
    run never ends; after any number of activations it is about to ask
    again, at the first quote's time minus one. *)
Theorem getHistoricalFor_same_page_never_ends fuel e symbol r q0 rest final :
  (forall t, api e symbol t = r) ->
  (forall t, only_conflicts (dbfaults e symbol t)) ->
  transport_err r = None ->
  Data r = q0 :: rest ->
  last (q0 :: rest) = Some final ->
  isDummyQuote final = false ->
  forall unixtime w,
    (getHistoricalFor (S fuel) e symbol unixtime w).2
    = Running (Int64.sub (Time q0) 1).
Proof.
  intros Hapi Hf Htr Hdata Hlast Hfinal.
  assert (Hact : forall unixtime w,
             (activation e symbol unixtime w).2
             = Recurse (Int64.sub (Time q0) 1)).
  { intros unixtime w. unfold activation, get. rewrite Hapi, Htr, Hdata.
    rewrite index_last, Hlast, Hfinal.
    destruct (writeToDB_only_conflicts (dbfaults e symbol unixtime)
                (q0 :: rest) symbol (record_request symbol unixtime w)
                (Hf unixtime)) as (wl & _ & ->).
    reflexivity. }
  induction fuel as [|fuel IH]; intros unixtime w.
  - simpl. specialize (Hact unixtime w).
    destruct (activation e symbol unixtime w) as [w' act]. simpl in Hact.
    by subst act.
  - change (getHistoricalFor (S (S fuel)) e symbol unixtime w)
      with (match activation e symbol unixtime w with
            | (w', Recurse untilDate) =>
                getHistoricalFor (S fuel) e symbol untilDate w'
            | (w', Send (OnDonec s)) => (w', Done s)
            | (w', Send (OnErrc err)) => (w', Failed err)
            | (w', OsExit) => (w', ProcessExit)
            | (w', Crash) => (w', ProcessPanic)
            end).
    specialize (Hact unixtime w).
    destruct (activation e symbol unixtime w) as [w' act]. simpl in Hact.
    subst act. apply IH.
Qed.

Lemma getHistoricalFor_same_page_never_ends_witness :
  (getHistoricalFor 5
     (constant_env (page [real_quote 3600 float_two]) no_faults)
     "BTC" 7200 (world_of ∅)).2
  = Running 3599.
Proof.
  assert (H1 : only_conflicts no_faults).
  { unfold only_conflicts, no_faults. simpl. split_and!; try reflexivity.
    constructor. }
  exact (getHistoricalFor_same_page_never_ends 4
           (constant_env (page [real_quote 3600 float_two]) no_faults)
           "BTC" (page [real_quote 3600 float_two])
           (real_quote 3600 float_two) [] (real_quote 3600 float_two)
           (fun _ => eq_refl) (fun _ => H1) eq_refl eq_refl eq_refl eq_refl
           7200 (world_of ∅)).
Defined.

(** ** [main] *)












(** ** More on the writer *)

(** X2.  A failing [createTableIfNeeded] reports [created = false], leaves the
    database as it was and opens no transaction. *)
Theorem createTableIfNeeded_failure f symbol w w' created err :
  createTableIfNeeded f symbol w = (w', (created, Some err)) ->
  created = false /\ db w' = db w /\ txops w' = txops w.
Proof.
  intros H.
  pose proof (createTableIfNeeded_spec _ _ _ _ _ _ H) as (Hops & _ & Hd).
  split_and!; [|done|done].
  revert H. unfold createTableIfNeeded.
  destruct (queryTable (query_fault f) symbol (db w)) as [[|code|msg]|].
  - destruct (createTable f symbol w) as [w1 [e|]]; by intros [= _ <- _].
  - by intros [= _ <- _].
  - by intros [= _ <- _].
  - discriminate.
Qed.

Lemma createTableIfNeeded_failure_witness :
  db (createTableIfNeeded (mkFaults None (Some disk_error) None [] None)
        "ETH" (world_of btc_3600)).1
  = btc_3600.
Proof.
  exact (proj1 (proj2 (createTableIfNeeded_failure
                         (mkFaults None (Some disk_error) None [] None)
                         "ETH" (world_of btc_3600) _ false disk_error
                         eq_refl))).
Defined.

Lemma insertLoop_logs_later_duplicate symbol pre :
  forall quotes q post faults (tx tx' : gmap string (gmap Z Quote))
         (t : gmap Z Quote) w w' err,
    Forall (eq None) faults ->
    tx !! symbol = Some t ->
    insertLoop symbol quotes faults tx w = (w', tx', err) ->
    real_prefix quotes = pre ++ q :: post ->
    is_Some (insert_missing pre t !! Time q) ->
    LogDuplicate symbol (Time q) ∈ logs w'.
Proof.
  induction pre as [|p pre IH];
    intros quotes q post faults tx tx' t w w' err Hf Ht Hl Hpre Hsome.
  - eapply insertLoop_logs_duplicates; eauto.
    rewrite Hpre. apply list_elem_of_here.
  - destruct quotes as [|q0 rest]; [done|]. simpl in Hpre, Hl.
    destruct (isDummyQuote q0) eqn:Hq0; [done|].
    injection Hpre as -> Hpre.
    assert (Hhd : mjoin (head faults) = None).
    { destruct Hf as [|o fs <- _]; done. }
    assert (Htl : Forall (eq None) (tail faults)).
    { destruct Hf; [constructor|done]. }
    rewrite Hhd in Hl. unfold txExec in Hl. rewrite Ht in Hl.
    rewrite insert_missing_cons in Hsome.
    destruct (t !! Time p) as [old|] eqn:Hold.
    + change (2067 =? SQLITE_CONSTRAINT_UNIQUE) with true in Hl. simpl in Hl.
      eapply (IH rest q post); eauto.
    + eapply (IH rest q post _ _ _ (<[Time p := p]> t)); eauto.
      apply lookup_insert_eq.
Qed.

(** X8.  Within one batch the first record of a time wins: a later record
    with the same time, met before any sentinel, is logged as a duplicate
    and skipped, and the row stored under that time is the one the
    records before it left. *)
Theorem writeToDB_duplicate_in_batch f quotes symbol w pre q post q' :
  only_conflicts f ->
  real_prefix quotes = pre ++ q :: post ->
  q' ∈ pre ->
  Time q' = Time q ->
  LogDuplicate symbol (Time q) ∈ logs (writeToDB f quotes symbol w).1
  /\ row (db (writeToDB f quotes symbol w).1) symbol (Time q)
     = row (db (writeToDB f pre symbol w).1) symbol (Time q).
Proof.
  intros Hf Hpre Hq' Htime.
  destruct (writeToDB_only_conflicts f quotes symbol w Hf) as (wl & Hl & Hw).
  destruct (writeToDB_only_conflicts f pre symbol w Hf) as (wl' & _ & Hw').
  assert (Hcov : is_Some (insert_missing pre (default ∅ (db w !! symbol))
                            !! Time q)).
  { rewrite <- Htime. by apply insert_missing_covers. }
  assert (Hreal : real_prefix pre = pre).
  { apply real_prefix_all_real. intros x Hx.
    destruct (real_prefix_split quotes) as (_ & _ & Hall & _).
    apply Hall. rewrite Hpre. apply elem_of_app. by left. }
  split.
  - rewrite Hw. simpl.
    destruct Hf as (_ & _ & _ & Hx & _).
    eapply insertLoop_logs_later_duplicate;
      [exact Hx|apply lookup_insert_eq|exact Hl|exact Hpre|exact Hcov].
  - rewrite Hw, Hw'. simpl. rewrite !row_insert_eq, Hreal, Hpre.
    rewrite insert_missing_app. destruct Hcov as [r Hr].
    rewrite Hr. by apply insert_missing_keeps.
Qed.

Lemma writeToDB_duplicate_in_batch_witness :
  LogDuplicate "BTC" 7200
    ∈ logs (writeToDB no_faults
              [real_quote 7200 float_one; real_quote 7200 float_two]
              "BTC" (world_of ∅)).1.
Proof.
  assert (H1 : only_conflicts no_faults).
  { unfold only_conflicts, no_faults. simpl. split_and!; try reflexivity.
    constructor. }
  exact (proj1 (writeToDB_duplicate_in_batch no_faults
                  [real_quote 7200 float_one; real_quote 7200 float_two]
                  "BTC" (world_of ∅) [real_quote 7200 float_one]
                  (real_quote 7200 float_two) []
                  (real_quote 7200 float_one)
                  H1 eq_refl (list_elem_of_here _ _) eq_refl)).
Defined.

(** ** The goroutine and the function *)

Lemma run_app e s1 s2 p : run e (s1 ++ s2) p = run e s2 (run e s1 p).
Proof. unfold run. apply foldl_app. Qed.

Lemma run_drive_not_in_driver e n gs i w k :
  (forall symbol cursor, gs !! k <> Some (InDriver symbol cursor)) ->
  run e (replicate n (Drive k)) (Live gs i w) = Live gs i w.
Proof.
  intros Hk. induction n as [|n IH]; [done|].
  change (run e (replicate (S n) (Drive k)) (Live gs i w))
    with (run e (replicate n (Drive k)) (step e (Drive k) (Live gs i w))).
  replace (step e (Drive k) (Live gs i w)) with (Live gs i w); [exact IH|].
  simpl. destruct (gs !! k) as [[symbol cursor|s0|]|] eqn:Hg; try done.
  by destruct (Hk symbol cursor).
Qed.

Lemma run_drive_steps e n gs i w k symbol cursor :
  gs !! k = Some (InDriver symbol cursor) ->
  run e (replicate n (Drive k)) (Live gs i w)
  = after_driver gs i k symbol (getHistoricalFor n e symbol cursor w).
Proof.
  revert gs cursor w.
  induction n as [|n IH]; intros gs cursor w Hk.
  - simpl. by rewrite list_insert_id.
  - change (run e (replicate (S n) (Drive k)) (Live gs i w))
      with (run e (replicate n (Drive k)) (step e (Drive k) (Live gs i w))).
    pose proof (lookup_lt_Some _ _ _ Hk) as Hlt.
    simpl. rewrite Hk.
    destruct (activation e symbol cursor w) as [w' [u|[s0|err]| |]].
    + rewrite (IH (<[k := InDriver symbol u]> gs) u w')
        by (by apply list_lookup_insert_eq).
      destruct (getHistoricalFor n e symbol u w') as [w2 [s0|err| | |c]];
        simpl; by rewrite ?list_insert_insert_eq.
    + apply run_drive_not_in_driver. intros sy cu.
      rewrite list_lookup_insert_eq by done. discriminate.
    + apply run_drive_not_in_driver. intros sy cu.
      rewrite list_lookup_insert_eq by done. discriminate.
    + apply run_exited.
    + apply run_exited.
Qed.

(** X17.  A program started for one symbol returns with exit status 0 as soon
    as its driver has sent its signal, be it the completion or an error:
    a failed backfill does not show in the exit status, only in the log
    line printed on reception. *)
Theorem main_single_symbol_exits_0 e n symbol now d w' r sig :
  getHistoricalFor n e symbol now (mkWorld d [LogFetching symbol] [] [])
  = (w', r) ->
  end_signal r = Some sig ->
  run e (replicate n (Drive 0) ++ [Receive 0]) (main None [symbol] now d)
  = Exited 0 (log_line (signal_log sig) w').
Proof.
  intros Hrun Hsig. rewrite run_app.
  change (main None [symbol] now d)
    with (Live [InDriver symbol now] 0 (mkWorld d [LogFetching symbol] [] [])).
  rewrite (run_drive_steps e n [InDriver symbol now] 0
             (mkWorld d [LogFetching symbol] [] []) 0 symbol now eq_refl).
  rewrite Hrun.
  destruct r as [s0|err| | |c]; simpl in Hsig; try discriminate;
    injection Hsig as <-; reflexivity.
Qed.

Lemma main_single_symbol_exits_0_witness :
  run (constant_env (page [real_quote 3600 float_two]) failing_insert)
    (replicate 1 (Drive 0) ++ [Receive 0]) (main None ["BTC"%string] 7200 ∅)
  = Exited 0
      (log_line (LogError disk_error)
         (getHistoricalFor 1
            (constant_env (page [real_quote 3600 float_two]) failing_insert)
            "BTC" 7200 (mkWorld ∅ [LogFetching "BTC"] [] [])).1).
Proof.
  exact (main_single_symbol_exits_0
           (constant_env (page [real_quote 3600 float_two]) failing_insert)
           1 "BTC" 7200 ∅ _ (Failed disk_error) (OnErrc disk_error)
           eq_refl eq_refl).
Defined.
